(** * scriptsnoop: the matching engine of [scriptsnoop.py]

    A shallow embedding of [scan_file] and of the part of Python's [re]
    and [str] it relies on, followed by the properties of the scanner.

    Python strings are sequences of Unicode code points; they are modelled
    as lists of code points ([N]).  Literals are written as Rocq strings
    and converted with [py]. *)

From Stdlib Require Import Ascii String.
From Stdlib Require Import List NArith Arith Bool Lia DecimalString Sorted.
Import ListNotations.

Open Scope N_scope.
Open Scope nat_scope.
Open Scope list_scope.

(** ** Python strings *)

Definition char := N.
Definition str := list char.

Definition py (s : string) : str := map N_of_ascii (list_ascii_of_string s).

(** [Py_UNICODE_ISSPACE]: the characters [str.strip] removes and [\s]
    matches in a [str] pattern. *)
Definition isspace (c : char) : bool :=
  ((9 <=? c) && (c <=? 13))%N || ((28 <=? c) && (c <=? 32))%N
  || (c =? 133)%N || (c =? 160)%N || (c =? 5760)%N
  || ((8192 <=? c) && (c <=? 8202))%N
  || (c =? 8232)%N || (c =? 8233)%N || (c =? 8239)%N
  || (c =? 8287)%N || (c =? 12288)%N.

Fixpoint lstrip (s : str) : str :=
  match s with
  | c :: t => if isspace c then lstrip t else s
  | [] => []
  end.

Definition rstrip (s : str) : str := rev (lstrip (rev s)).

(** [s.strip()] *)
Definition strip (s : str) : str := rstrip (lstrip s).

(** ** Regular expressions

    The fragment of Python's pattern language that the scanner's patterns
    are written in.  Every pattern of the scanner is matched with
    [re.IGNORECASE] or has no cased character. *)

Inductive regex : Type :=
| Eps                                   (* the empty pattern *)
| Bol                                   (* ^ *)
| Lit (c : char)                        (* a literal character *)
| Dot                                   (* . *)
| Space                                 (* \s *)
| CSet (neg : bool) (cs : list char)    (* [...] and [^...] *)
| Seq (a b : regex)
| Alt (a b : regex)                     (* a|b *)
| Star (a : regex).                     (* a*, greedy *)

Definition Plus (a : regex) : regex := Seq a (Star a).   (* a+ *)
Definition Opt (a : regex) : regex := Alt a Eps.         (* a? *)

Fixpoint Word (s : str) : regex :=
  match s with
  | [] => Eps
  | [c] => Lit c
  | c :: t => Seq (Lit c) (Word t)
  end.

Fixpoint Alts (a : regex) (l : list regex) : regex :=
  match l with
  | [] => a
  | b :: l' => Alt a (Alts b l')
  end.

Fixpoint Seqs (a : regex) (l : list regex) : regex :=
  match l with
  | [] => a
  | b :: l' => Seq a (Seqs b l')
  end.

(** Case folding of [re.IGNORECASE] on [str] patterns, for the characters
    that fold to an ASCII letter: A-Z, and the four non-ASCII characters
    U+0130, U+0131 (both match [i]), U+017F (matches [s]) and U+212A
    (matches [k]).  The cased characters of the scanner's patterns are
    ASCII letters; other cased characters are compared as they are. *)
Definition fold (c : char) : char :=
  if ((65 <=? c) && (c <=? 90))%N then (c + 32)%N
  else if ((c =? 304) || (c =? 305))%N then 105%N
  else if (c =? 383)%N then 115%N
  else if (c =? 8490)%N then 107%N
  else c.

Definition ieq (c d : char) : bool := (fold c =? fold d)%N.

Definition in_set (cs : list char) (d : char) : bool :=
  existsb (fun c => ieq c d) cs.

(** One greedy repetition loop: every way of matching [step] zero or more
    times from [s], longest first.  An iteration that consumes nothing
    ends the loop, so [length s] iterations are enough. *)
Fixpoint star_loop (step : str -> list str) (fuel : nat) (s : str) : list str :=
  match fuel with
  | O => [s]
  | S f =>
      flat_map (fun s' => if length s' <? length s then star_loop step f s' else [])
               (step s) ++ [s]
  end.

(** The backtracking matcher.  [exec n0 r s] lists, in the order in which
    the backtracking engine tries them, the remainders of [s] after each
    way of matching [r] at the front of [s]; [n0] is the length of the
    whole subject string, so that [length s = n0] exactly at its start. *)
Fixpoint exec (n0 : nat) (r : regex) (s : str) : list str :=
  match r with
  | Eps => [s]
  | Bol => if length s =? n0 then [s] else []
  | Lit c =>
      match s with
      | d :: t => if ieq c d then [t] else []
      | [] => []
      end
  | Dot =>
      match s with
      | d :: t => if (d =? 10)%N then [] else [t]
      | [] => []
      end
  | Space =>
      match s with
      | d :: t => if isspace d then [t] else []
      | [] => []
      end
  | CSet neg cs =>
      match s with
      | d :: t => if xorb neg (in_set cs d) then [t] else []
      | [] => []
      end
  | Seq a b => flat_map (exec n0 b) (exec n0 a s)
  | Alt a b => exec n0 a s ++ exec n0 b s
  | Star a => star_loop (exec n0 a) (length s) s
  end.

Definition matches_at (n0 : nat) (r : regex) (s : str) : bool :=
  match exec n0 r s with
  | [] => false
  | _ :: _ => true
  end.

(** [re.match(r, s)]: a match at the start of [s]. *)
Definition re_match (r : regex) (s : str) : bool := matches_at (length s) r s.

Fixpoint search_from (n0 : nat) (r : regex) (s : str) : bool :=
  matches_at n0 r s ||
  match s with
  | [] => false
  | _ :: t => search_from n0 r t
  end.

(** [re.search(r, s)]: a match starting anywhere in [s]. *)
Definition re_search (r : regex) (s : str) : bool := search_from (length s) r s.

(** [re.sub(r, '', s)].  [skip] counts the characters of the current match
    that are still to be dropped.  The match taken at a position is the
    first one in backtracking order; an empty match deletes nothing. *)
Fixpoint sub_from (n0 : nat) (r : regex) (skip : nat) (s : str) : str :=
  match s with
  | [] => []
  | c :: t =>
      match skip with
      | S k => sub_from n0 r k t
      | O =>
          match exec n0 r s with
          | s' :: _ =>
              match length s - length s' with
              | S k => sub_from n0 r k t
              | O => c :: sub_from n0 r 0 t
              end
          | [] => c :: sub_from n0 r 0 t
          end
      end
  end.

Definition re_sub (r : regex) (s : str) : str := sub_from (length s) r 0 s.

(** ** The scanner *)

(** A pattern of the catalog: the pattern string, which [scan_file]
    reports, and the expression [re] compiles it to.  The patterns of a
    catalog are taken to compile, as those of [RISKY_PATTERNS] do, so that
    [re.search] raises nothing. *)
Record Pattern : Type := mkPattern { text : str; compiled : regex }.

Definition W (s : string) : regex := Word (py s).

Definition dquote : char := 34%N.
Definition squote : char := 39%N.
Definition backtick : char := 96%N.

(** [RISKY_PATTERNS] *)
Definition RISKY_PATTERNS : list Pattern :=
  [ mkPattern (py "rm\s+-rf")
      (Seqs (W "rm") [Plus Space; W "-rf"]);
    mkPattern (py "curl\s+.*\|.*(bash|sh)")
      (Seqs (W "curl") [Plus Space; Star Dot; Lit 124%N; Star Dot;
                        Alt (W "bash") (W "sh")]);
    mkPattern (py "wget\s+.*\|.*(bash|sh)")
      (Seqs (W "wget") [Plus Space; Star Dot; Lit 124%N; Star Dot;
                        Alt (W "bash") (W "sh")]);
    mkPattern (py "sudo\s+.*(rm|dd|mkfs|chmod)")
      (Seqs (W "sudo") [Plus Space; Star Dot;
                        Alts (W "rm") [W "dd"; W "mkfs"; W "chmod"]]);
    mkPattern (py "chmod\s+777")
      (Seqs (W "chmod") [Plus Space; W "777"]);
    mkPattern (py "dd\s+if=/dev/zero")
      (Seqs (W "dd") [Plus Space; W "if=/dev/zero"]);
    mkPattern (py "os\.(remove|unlink|rmdir)")
      (Seqs (W "os.") [Alts (W "remove") [W "unlink"; W "rmdir"]]);
    mkPattern (py "(requests\.get|urllib\.request\.urlopen)\s*\(")
      (Seqs (Alt (W "requests.get") (W "urllib.request.urlopen"))
            [Star Space; Lit 40%N]);
    mkPattern (py "subprocess\.(call|Popen|run)\s*\(\s*[" ++ [dquote]
                 ++ py "\']?\s*(sudo|rm|chmod|curl)")
      (Seqs (W "subprocess.")
            [Alts (W "call") [W "Popen"; W "run"]; Star Space; Lit 40%N;
             Star Space; Opt (CSet false [dquote; squote]); Star Space;
             Alts (W "sudo") [W "rm"; W "chmod"; W "curl"]]) ].

(** The comment openers: a hash, two slashes, or a slash and a star. *)
Definition OPENER : regex := Alts (Lit 35%N) [W "//"; W "/*"].

(** The pattern of the line classifier: at the start of the line, optional
    whitespace and then a hash, two slashes, or a slash and a star. *)
Definition COMMENT : regex := Seqs Bol [Star Space; OPENER].

(** One alternative of the quote pattern: [q[^q]*q]. *)
Definition quoted (q : char) : regex :=
  Seqs (Lit q) [Star (CSet true [q]); Lit q].

(** The pattern of the quote stripper: double-quoted, single-quoted and
    backtick-quoted regions, in this order of alternatives. *)
Definition QUOTED : regex :=
  Alts (quoted dquote) [quoted squote; quoted backtick].

(** [re.sub(QUOTED, '', original_line)] *)
Definition strip_quotes (original_line : str) : str := re_sub QUOTED original_line.

Record Finding : Type := mkFinding
  { file : str; line : nat; pattern : str; content : str }.

(** [original_line[:100] + '...' if len(original_line) > 100 else original_line] *)
Definition truncate (original_line : str) : str :=
  if 100 <? length original_line
  then firstn 100 original_line ++ py "..."
  else original_line.

(** A [for pattern in patterns: if re.search(...): ...; break] loop: the
    pattern at which the loop body runs, if any. *)
Fixpoint first_match (patterns : list Pattern) (subject : str) : option Pattern :=
  match patterns with
  | [] => None
  | p :: ps =>
      if re_search (compiled p) subject then Some p else first_match ps subject
  end.

Definition DEQUOTED : str := py " (de-quoted)".

(** The loop over the full original line. *)
Definition raw_pass (file_path : str) (patterns : list Pattern)
    (line_num : nat) (original_line : str) : list Finding :=
  match first_match patterns original_line with
  | Some p => [mkFinding file_path line_num (text p) (truncate original_line)]
  | None => []
  end.

(** The loop over the de-quoted line. *)
Definition dequoted_pass (file_path : str) (patterns : list Pattern)
    (line_num : nat) (original_line : str) : list Finding :=
  let line_no_quotes := strip_quotes original_line in
  match first_match patterns line_no_quotes with
  | Some p =>
      [mkFinding file_path line_num (text p ++ DEQUOTED) (truncate original_line)]
  | None => []
  end.

(** The body of the loop over the lines: what one line appends to [matches]. *)
Definition scan_line (file_path : str) (patterns : list Pattern)
    (line_num : nat) (line : str) : list Finding :=
  let original_line := strip line in
  if re_match COMMENT original_line then []
  else raw_pass file_path patterns line_num original_line
       ++ dequoted_pass file_path patterns line_num original_line.

(** What opening a file and iterating over it gives: a line and the rest,
    the end of the file, or an exception ([Raise] at the head is a failing
    [open]). *)
Inductive reading : Type :=
| Eof
| Line (l : str) (rest : reading)
| Raise (e : str).

(** The part of the operating system [scan_file] looks at. *)
Record Env : Type := mkEnv
  { abspath : str -> str;          (* os.path.abspath *)
    script_itself : str;           (* os.path.abspath(__file__) *)
    open : str -> reading }.

(** The loop [for line_num, line in enumerate(f, 1)] inside [try], with the
    [except] clause: the list [matches] so far and what is printed. *)
Fixpoint scan_lines (file_path : str) (patterns : list Pattern)
    (line_num : nat) (f : reading) (matches : list Finding)
  : list Finding * list str :=
  match f with
  | Eof => (matches, [])
  | Line l rest =>
      scan_lines file_path patterns (S line_num) rest
                 (matches ++ scan_line file_path patterns line_num l)
  | Raise e => (matches, [py "Error reading " ++ file_path ++ py ": " ++ e])
  end.

(** [scan_file(file_path, patterns)]: the returned list and the lines
    printed. *)
Definition scan_file (env : Env) (file_path : str) (patterns : list Pattern)
  : list Finding * list str :=
  if list_eq_dec N.eq_dec (abspath env file_path) (script_itself env)
  then ([], [])
  else scan_lines file_path patterns 1 (open env file_path) [].

(** ** The specification's vocabulary *)

Definition is_quote (c : char) : bool :=
  (c =? dquote)%N || (c =? squote)%N || (c =? backtick)%N.

Definition no_quote (s : str) : Prop := forall c, In c s -> is_quote c = false.

Fixpoint prefixb (m s : str) : bool :=
  match m, s with
  | [], _ => true
  | a :: m', b :: s' => (a =? b)%N && prefixb m' s'
  | _ :: _, [] => false
  end.

(** The line classifier as the specification words it: the first
    non-whitespace content is a hash, two slashes, or a slash and a star. *)
Definition spec_pure_comment (s : str) : bool :=
  let u := lstrip s in
  prefixb (py "#") u || prefixb (py "//") u || prefixb (py "/*") u.

(** One delimiter type stripped by a pass of its own. *)
Definition strip_delim (q : char) (s : str) : str := re_sub (quoted q) s.

(** The positions [re.sub] would delete, as a mask over [s]. *)
Fixpoint mask_from (n0 : nat) (r : regex) (skip : nat) (s : str) : list bool :=
  match s with
  | [] => []
  | c :: t =>
      match skip with
      | S k => true :: mask_from n0 r k t
      | O =>
          match exec n0 r s with
          | s' :: _ =>
              match length s - length s' with
              | S k => true :: mask_from n0 r k t
              | O => false :: mask_from n0 r 0 t
              end
          | [] => false :: mask_from n0 r 0 t
          end
      end
  end.

Definition mask (r : regex) (s : str) : list bool := mask_from (length s) r 0 s.

Fixpoint delete_masked (ms : list (list bool)) (s : str) : str :=
  match s with
  | [] => []
  | c :: t =>
      if existsb (fun m => hd false m) ms
      then delete_masked (map (@tl bool) ms) t
      else c :: delete_masked (map (@tl bool) ms) t
  end.

(** The three per-delimiter passes run side by side on the same line, a
    character being deleted when any of them deletes it. *)
Definition spec_strip_parallel (s : str) : str :=
  delete_masked [mask (quoted dquote) s; mask (quoted squote) s;
                 mask (quoted backtick) s] s.

(** The three per-delimiter passes run one after the other, in the order
    [q1], [q2], [q3]. *)
Definition spec_strip_seq (q1 q2 q3 : char) (s : str) : str :=
  strip_delim q3 (strip_delim q2 (strip_delim q1 s)).

Inductive subseq {A : Type} : list A -> list A -> Prop :=
| subseq_nil : subseq [] []
| subseq_keep : forall x l1 l2, subseq l1 l2 -> subseq (x :: l1) (x :: l2)
| subseq_drop : forall x l1 l2, subseq l1 l2 -> subseq l1 (x :: l2).

(** The lines a reading delivers before it ends or raises. *)
Fixpoint lines_read (f : reading) : list str :=
  match f with
  | Line l rest => l :: lines_read rest
  | Eof | Raise _ => []
  end.

Fixpoint raises (f : reading) : bool :=
  match f with
  | Line _ rest => raises rest
  | Eof => false
  | Raise _ => true
  end.

(** A reading of the given lines that ends normally. *)
Fixpoint complete (ls : list str) : reading :=
  match ls with
  | [] => Eof
  | l :: ls' => Line l (complete ls')
  end.

Definition findings_at (n : nat) (ms : list Finding) : list Finding :=
  filter (fun f => line f =? n) ms.

(** The [k]-th line read, counting from [first]. *)
Fixpoint line_numbered (first : nat) (f : reading) (k : nat) : option str :=
  match f with
  | Line l rest => if k =? first then Some l else line_numbered (S first) rest k
  | Eof | Raise _ => None
  end.

(** [s'] is what is left of [s] after a prefix of it. *)
Definition suffix_of (s' s : str) : Prop := exists pre, s = pre ++ s'.

(** Patterns without [Bol], the only construct that looks at the length
    of the whole subject. *)
Fixpoint bol_free (r : regex) : bool :=
  match r with
  | Bol => false
  | Seq a b | Alt a b => bol_free a && bol_free b
  | Star a => bol_free a
  | _ => true
  end.

(** Case analysis on the length of the match taken by [sub_from]. *)
Ltac case_match_length :=
  match goal with
  | |- context [match ?x with O => _ :: _ | S _ => _ end] => destruct x
  end.

(** The environment [env] with the file at every path read as [f]. *)
Definition with_file (env : Env) (f : reading) : Env :=
  mkEnv (abspath env) (script_itself env) (fun _ => f).

(** ** Sample inputs *)

(** An environment whose files all read as [f], with the scanner itself
    at another path. *)
Definition sample_env (f : reading) : Env :=
  mkEnv (fun p => p) (py "/opt/scriptsnoop.py") (fun _ => f).

(** A file whose reading raises after its first line. *)
Definition failing_env : Env :=
  sample_env (Line (py "rm -rf /tmp/data") (Raise (py "Input/output error"))).

(** A line with interleaved double and single quotes. *)
Definition interleaved : str :=
  [dquote] ++ py "a'b" ++ [dquote] ++ py " 'c" ++ [dquote] ++ py "d' "
  ++ [dquote] ++ py "e".



(** An indented line with a risky command inside a conditional. *)
Definition nested_rm : str := py "    if ok; then rm -rf /tmp/x; fi".

(** A line matching the fourth and the fifth pattern of the catalog. *)
Definition sudo_chmod : str := py "sudo chmod 777 /etc/passwd".

(** A risky line of 108 characters. *)
Definition long_line : str := py "rm -rf /" ++ repeat 120%N 100.

(** A risky command with a quoted argument. *)
Definition quoted_path : str := py "rm -rf '/tmp/my data'".

(** ** Finding the files and reporting *)

(** The decimal numeral an f-string writes for an integer that is not
    negative. *)
Definition str_of_nat (n : nat) : str :=
  py (NilEmpty.string_of_uint (Nat.to_uint n)).

(** What [main] and [find_risky_files] look at besides [Env]: the line
    typed at the prompt, and the functions of [os.path] and [glob], which
    depend on the platform and on the file system. *)
Record Host : Type := mkHost
  { os : Env;
    input : str;                   (* what input(...) returns *)
    normpath : str -> str;         (* os.path.normpath *)
    expanduser : str -> str;       (* os.path.expanduser *)
    path_exists : str -> bool;     (* os.path.exists *)
    join : list str -> str;        (* os.path.join, on its arguments *)
    glob : str -> list str }.      (* glob.glob(pattern, recursive=True) *)

(** The default value of [extensions]. *)
Definition EXTENSIONS : list str := [py "*.py"; py "*.sh"; py "*.bat"].

(** [find_risky_files(directory, extensions)] *)
Definition find_risky_files (h : Host) (directory : str)
    (extensions : list str) : list str :=
  flat_map (fun ext => glob h (join h [directory; py "**"; ext])) extensions.

(** The loop of [main] over the files: the list [all_matches] and what the
    calls of [scan_file] print. *)
Fixpoint scan_files (env : Env) (files : list str) (all_matches : list Finding)
  : list Finding * list str :=
  match files with
  | [] => (all_matches, [])
  | file_path :: rest =>
      let scanned := scan_file env file_path RISKY_PATTERNS in
      let later := scan_files env rest (all_matches ++ fst scanned) in
      (fst later, snd scanned ++ snd later)
  end.

(** The line [main] prints for one finding. *)
Definition report_line (m : Finding) : str :=
  py "  File: " ++ file m ++ py " | Line " ++ str_of_nat (line m)
  ++ py " | Pattern: " ++ pattern m ++ py " | Content: " ++ content m.

Definition MISSING_DIRECTORY (target_dir : str) : str :=
  [10060%N] ++ py " Error: The directory '" ++ target_dir
  ++ py "' does not exist. Please check the path and try again.".

Definition NO_FILES : str :=
  [10060%N]
  ++ py " No supported files (.py, .sh, .bat) found in the directory or subdirectories.".

Definition SUMMARY (found files : nat) : str :=
  [10%N; 128680%N] ++ py " Found " ++ str_of_nat found
  ++ py " risky patterns in " ++ str_of_nat files ++ py " files:".

Definition DISCLAIMER : str :=
  [10%N; 9888%N; 65039%N] ++ py "  Review these manually" ++ [8212%N]
  ++ py "some may be false positives or legitimate in context.".

Definition ALL_SAFE : str :=
  [9989%N]
  ++ py " No risky patterns found. All files appear safe based on current rules.".

(** The directory [main] scans for the line typed at the prompt. *)
Definition target_of (h : Host) : str :=
  let target_dir := strip (input h) in
  let target_dir := match target_dir with [] => py "." | _ => target_dir end in
  expanduser h (normpath h target_dir).

(** [main()]: the arguments of the successive calls of [print]. *)
Definition main (h : Host) : list str :=
  let target_dir := target_of h in
  if negb (path_exists h target_dir) then [MISSING_DIRECTORY target_dir]
  else
    let scanning := py "Scanning directory: " ++ abspath (os h) target_dir in
    let files := find_risky_files h target_dir EXTENSIONS in
    match files with
    | [] => [scanning; NO_FILES]
    | _ :: _ =>
        let found :=
          py "Found " ++ str_of_nat (length files) ++ py " files to scan." in
        let scanned := scan_files (os h) files [] in
        let all_matches := fst scanned in
        scanning :: found :: snd scanned
        ++ match all_matches with
           | [] => [ALL_SAFE]
           | _ :: _ =>
               SUMMARY (length all_matches) (length files)
               :: map report_line all_matches ++ [DISCLAIMER]
           end
    end.

(** The host [h] with another line typed at the prompt. *)
Definition with_input (h : Host) (typed : str) : Host :=
  mkHost (os h) typed (normpath h) (expanduser h) (path_exists h) (join h)
         (glob h).

(** ASCII letters replaced by their capitals. *)
Definition upper (c : char) : char :=
  if ((97 <=? c) && (c <=? 122))%N then (c - 32)%N else c.

(** A line with its ASCII letters capitalised. *)
Definition capitals (s : str) : str := map upper s.

(** A finding with the letters of its content capitalised. *)
Definition upper_content (m : Finding) : Finding :=
  mkFinding (file m) (line m) (pattern m) (capitals (content m)).

(** A raw-pass finding relabelled as the de-quoted pass labels it. *)
Definition relabel (m : Finding) : Finding :=
  mkFinding (file m) (line m) (pattern m ++ DEQUOTED) (content m).

(** A finding with its line number moved by [k]. *)
Definition renumber (k : nat) (m : Finding) : Finding :=
  mkFinding (file m) (k + line m) (pattern m) (content m).

(** A host with two script files under [proj], the second of which is the
    scanner itself. *)
Definition sample_host : Host :=
  mkHost
    (mkEnv (fun p => p) (py "proj/scriptsnoop.py")
           (fun p => if list_eq_dec N.eq_dec p (py "proj/run.sh")
                     then Line (py "#!/bin/sh") (Line (py "  sudo rm x ") Eof)
                     else Line (py "rm -rf /") Eof))
    (py " proj ")
    (fun p => p) (fun p => p)
    (fun p => if list_eq_dec N.eq_dec p (py "proj") then true else false)
    (fun l => match l with
              | [a; b; c] => a ++ py "/" ++ b ++ py "/" ++ c
              | _ => []
              end)
    (fun p => if list_eq_dec N.eq_dec p (py "proj/**/*.py")
              then [py "proj/scriptsnoop.py"]
              else if list_eq_dec N.eq_dec p (py "proj/**/*.sh")
                   then [py "proj/run.sh"] else []).

(** A host whose two script files under [proj] cannot be opened. *)
Definition locked_host : Host :=
  mkHost
    (mkEnv (fun p => p) (py "proj/scriptsnoop.py")
           (fun _ => Raise (py "Permission denied")))
    (py "proj")
    (fun p => p) (fun p => p) (fun _ => true)
    (fun l => match l with
              | [a; b; c] => a ++ py "/" ++ b ++ py "/" ++ c
              | _ => []
              end)
    (fun p => if list_eq_dec N.eq_dec p (py "proj/**/*.sh")
              then [py "proj/run.sh"; py "proj/build.sh"] else []).

(** ** Properties of the matcher *)

Lemma fold_fixed (c : char) : (c < 65 \/ c = 96)%N -> fold c = c.
Proof.
  intros H. unfold fold.
  destruct (N.leb_spec 65 c); destruct (N.leb_spec c 90); simpl; try lia;
    repeat (match goal with
            | |- context [(?a =? ?b)%N] => destruct (N.eqb_spec a b); simpl; try lia
            end); reflexivity.
Qed.

Lemma fold_range (d : char) :
  fold d = d \/ (((65 <= d <= 90)%N \/ (304 <= d)%N) /\ (97 <= fold d <= 122)%N).
Proof.
  unfold fold.
  destruct (N.leb_spec 65 d); destruct (N.leb_spec d 90); simpl;
    repeat (match goal with
            | |- context [(?a =? ?b)%N] => destruct (N.eqb_spec a b); simpl
            end);
    first [left; reflexivity | right; lia].
Qed.

(** A character that is neither a letter nor one of the four characters
    folding to a letter is matched by itself only. *)
Lemma ieq_uncased (c d : char) :
  (c < 65 \/ c = 96)%N -> ieq c d = (c =? d)%N.
Proof.
  intros H. unfold ieq. rewrite (fold_fixed c H).
  destruct (fold_range d) as [->|[H1 H2]]; [reflexivity|].
  destruct (N.eqb_spec c (fold d)); destruct (N.eqb_spec c d);
    try reflexivity; lia.
Qed.

Lemma is_quote_uncased (q : char) : is_quote q = true -> (q < 65 \/ q = 96)%N.
Proof.
  unfold is_quote, dquote, squote, backtick. intros H.
  destruct (N.eqb_spec q 34); [lia|].
  destruct (N.eqb_spec q 39); [lia|].
  destruct (N.eqb_spec q 96); [lia|]. discriminate.
Qed.

Lemma ieq_quote (q d : char) : is_quote q = true -> ieq q d = (q =? d)%N.
Proof. intros H. apply ieq_uncased, is_quote_uncased, H. Qed.

Lemma is_quote_cases (q : char) :
  is_quote q = true -> q = dquote \/ q = squote \/ q = backtick.
Proof.
  unfold is_quote. intros H.
  destruct (N.eqb_spec q dquote); [auto|].
  destruct (N.eqb_spec q squote); [auto|].
  destruct (N.eqb_spec q backtick); [auto|]. discriminate.
Qed.

Lemma suffix_of_refl (s : str) : suffix_of s s.
Proof. exists []. reflexivity. Qed.

Lemma suffix_of_tail (c : char) (s : str) : suffix_of s (c :: s).
Proof. exists [c]. reflexivity. Qed.

Lemma suffix_of_trans (a b c : str) : suffix_of a b -> suffix_of b c -> suffix_of a c.
Proof.
  intros [p ->] [q ->]. exists (q ++ p). now rewrite app_assoc.
Qed.

Lemma star_loop_suffix (step : str -> list str) :
  (forall s s', In s' (step s) -> suffix_of s' s) ->
  forall fuel s s', In s' (star_loop step fuel s) -> suffix_of s' s.
Proof.
  intros Hstep. induction fuel as [|f IH]; simpl; intros s s' Hin.
  - destruct Hin as [<-|[]]. apply suffix_of_refl.
  - apply in_app_or in Hin. destruct Hin as [Hin|[<-|[]]].
    + apply in_flat_map in Hin. destruct Hin as [u [Hu Hin]].
      destruct (length u <? length s); [|contradiction].
      eapply suffix_of_trans; [apply IH, Hin | apply Hstep, Hu].
    + apply suffix_of_refl.
Qed.

(** Every remainder the matcher returns is a suffix of its input. *)
Lemma exec_suffix (n0 : nat) (r : regex) :
  forall s s', In s' (exec n0 r s) -> suffix_of s' s.
Proof.
  induction r; simpl; intros s s' Hin.
  - destruct Hin as [<-|[]]. apply suffix_of_refl.
  - destruct (length s =? n0); [|contradiction].
    destruct Hin as [<-|[]]. apply suffix_of_refl.
  - destruct s as [|d t]; [contradiction|].
    destruct (ieq c d); [|contradiction].
    destruct Hin as [<-|[]]. apply suffix_of_tail.
  - destruct s as [|d t]; [contradiction|].
    destruct (d =? 10)%N; [contradiction|].
    destruct Hin as [<-|[]]. apply suffix_of_tail.
  - destruct s as [|d t]; [contradiction|].
    destruct (isspace d); [|contradiction].
    destruct Hin as [<-|[]]. apply suffix_of_tail.
  - destruct s as [|d t]; [contradiction|].
    destruct (xorb neg (in_set cs d)); [|contradiction].
    destruct Hin as [<-|[]]. apply suffix_of_tail.
  - apply in_flat_map in Hin. destruct Hin as [u [Hu Hin]].
    eapply suffix_of_trans; [apply IHr2, Hin | apply IHr1, Hu].
  - apply in_app_or in Hin. destruct Hin; auto.
  - eapply star_loop_suffix; eauto.
Qed.

(** The characters [sub_from] skips after a match are the matched ones:
    the remainder is the subject without its first
    [length s - length s'] characters. *)
Lemma exec_remainder (n0 : nat) (r : regex) (s s' : str) :
  In s' (exec n0 r s) -> skipn (length s - length s') s = s'.
Proof.
  intros H. destruct (exec_suffix _ _ _ _ H) as [pre ->].
  rewrite length_app.
  replace (length pre + length s' - length s') with (length pre) by lia.
  rewrite skipn_app, skipn_all, Nat.sub_diag. reflexivity.
Qed.

Lemma star_loop_ext (f g : str -> list str) :
  (forall s, f s = g s) ->
  forall fuel s, star_loop f fuel s = star_loop g fuel s.
Proof.
  intros H. induction fuel as [|n IH]; simpl; intros s; [reflexivity|].
  rewrite H. f_equal. apply flat_map_ext. intros u.
  destruct (length u <? length s); [apply IH | reflexivity].
Qed.

Lemma exec_bol_free (n m : nat) (r : regex) :
  bol_free r = true -> forall s, exec n r s = exec m r s.
Proof.
  induction r; simpl; intros H s; try reflexivity; try discriminate.
  - apply andb_prop in H. destruct H as [H1 H2].
    rewrite (IHr1 H1). apply flat_map_ext. intros u. apply IHr2, H2.
  - apply andb_prop in H. destruct H as [H1 H2].
    now rewrite (IHr1 H1), (IHr2 H2).
  - apply star_loop_ext. intros u. apply IHr, H.
Qed.

Lemma sub_from_bol_free (n m : nat) (r : regex) :
  bol_free r = true -> forall s k, sub_from n r k s = sub_from m r k s.
Proof.
  intros H. induction s as [|c t IH]; simpl; intros k; [reflexivity|].
  destruct k; [|apply IH].
  rewrite (exec_bol_free n m r H).
  destruct (exec m r (c :: t)) as [|s' ?]; [f_equal; apply IH|].
  case_match_length; [f_equal|]; apply IH.
Qed.

Lemma sub_from_skip (n0 : nat) (r : regex) (l rest : str) :
  sub_from n0 r (length l) (l ++ rest) = sub_from n0 r 0 rest.
Proof. induction l as [|c l IH]; simpl; [reflexivity | apply IH]. Qed.

Lemma sub_from_subseq (n0 : nat) (r : regex) :
  forall s k, subseq (sub_from n0 r k s) s.
Proof.
  induction s as [|c t IH]; simpl; intros k; [constructor|].
  destruct k; [|apply subseq_drop, IH].
  destruct (exec n0 r (c :: t)) as [|s' ?]; [apply subseq_keep, IH|].
  case_match_length; [apply subseq_keep, IH | apply subseq_drop, IH].
Qed.

Lemma subseq_length {A : Type} (l1 l2 : list A) :
  subseq l1 l2 -> length l1 <= length l2.
Proof. induction 1; simpl; lia. Qed.

(** ** Properties of the quote stripper *)

Lemma sub_from_nomatch (n0 : nat) (r : regex) (c : char) (t : str) :
  exec n0 r (c :: t) = [] ->
  sub_from n0 r 0 (c :: t) = c :: sub_from n0 r 0 t.
Proof. intros H. cbn [sub_from]. now rewrite H. Qed.

Lemma sub_from_match (n0 : nat) (r : regex) (c : char) (t s' : str)
    (tl : list str) (k : nat) :
  exec n0 r (c :: t) = s' :: tl ->
  length (c :: t) - length s' = S k ->
  sub_from n0 r 0 (c :: t) = sub_from n0 r k t.
Proof. intros H1 H2. cbn [sub_from]. now rewrite H1, H2. Qed.

Lemma exec_quoted (n0 : nat) (q : char) (s : str) :
  exec n0 (quoted q) s =
  match s with
  | d :: t =>
      if ieq q d
      then flat_map (exec n0 (Lit q))
                    (star_loop (exec n0 (CSet true [q])) (length t) t)
      else []
  | [] => []
  end.
Proof.
  unfold quoted. cbn [Seqs exec]. destruct s as [|d t]; [reflexivity|].
  destruct (ieq q d); cbn [flat_map]; [apply app_nil_r | reflexivity].
Qed.

Lemma exec_not_quote_char (n0 : nat) (q d : char) (t : str) :
  is_quote q = true ->
  exec n0 (CSet true [q]) (d :: t) = if (q =? d)%N then [] else [t].
Proof.
  intros Hq. cbn [exec in_set existsb]. rewrite (ieq_quote q d Hq), orb_false_r.
  now destruct (q =? d)%N.
Qed.

Lemma exec_lit_quote (n0 : nat) (q : char) (s : str) :
  is_quote q = true ->
  exec n0 (Lit q) s =
  match s with
  | d :: t => if (q =? d)%N then [t] else []
  | [] => []
  end.
Proof.
  intros Hq. destruct s as [|d t]; [reflexivity|].
  cbn [exec]. now rewrite (ieq_quote q d Hq).
Qed.

Lemma exec_quoted_other (n0 : nat) (q c : char) (t : str) :
  is_quote q = true -> c <> q -> exec n0 (quoted q) (c :: t) = [].
Proof.
  intros Hq Hc. rewrite exec_quoted, (ieq_quote q c Hq).
  destruct (N.eqb_spec q c); [congruence | reflexivity].
Qed.

(** With no closing quote ahead, the closing [q] of [q[^q]*q] matches
    nowhere. *)
Lemma star_open (n0 : nat) (q : char) :
  is_quote q = true ->
  forall fuel t, ~ In q t ->
    flat_map (exec n0 (Lit q)) (star_loop (exec n0 (CSet true [q])) fuel t) = [].
Proof.
  intros Hq.
  assert (Hlit : forall t, ~ In q t -> exec n0 (Lit q) t = []).
  { intros t Ht. rewrite exec_lit_quote by assumption.
    destruct t as [|d t]; [reflexivity|].
    destruct (N.eqb_spec q d); [|reflexivity].
    exfalso. apply Ht. left. congruence. }
  induction fuel as [|f IH]; intros t Ht; cbn [star_loop flat_map].
  - now rewrite Hlit, app_nil_r.
  - rewrite flat_map_app. cbn [flat_map]. rewrite Hlit by assumption.
    rewrite ?app_nil_r. destruct t as [|d t]; [reflexivity|].
    rewrite exec_not_quote_char by assumption.
    destruct (q =? d)%N; [reflexivity|]. cbn [flat_map].
    rewrite ?app_nil_r. destruct (length t <? length (d :: t)); [|reflexivity].
    apply IH. intros Hin. apply Ht. now right.
Qed.

(** With a closing quote ahead, [[^q]*] runs up to the nearest one and the
    closing [q] matches there and nowhere else. *)
Lemma star_close (n0 : nat) (q : char) (rest : str) :
  is_quote q = true ->
  forall body fuel, ~ In q body -> length body <= fuel ->
    flat_map (exec n0 (Lit q))
             (star_loop (exec n0 (CSet true [q])) fuel (body ++ q :: rest))
    = [rest].
Proof.
  intros Hq. induction body as [|d body IH]; intros fuel Hb Hfuel.
  - cbn [app]. destruct fuel as [|f]; cbn [star_loop].
    + cbn [flat_map]. rewrite exec_lit_quote, N.eqb_refl by assumption.
      reflexivity.
    + rewrite exec_not_quote_char, N.eqb_refl by assumption.
      cbn [flat_map app]. rewrite exec_lit_quote, N.eqb_refl by assumption.
      reflexivity.
  - destruct fuel as [|f]; [simpl in Hfuel; lia|].
    assert (Hd : (q =? d)%N = false).
    { apply N.eqb_neq. intros ->. apply Hb. now left. }
    cbn [app star_loop]. rewrite exec_not_quote_char, Hd by assumption.
    cbn [flat_map]. rewrite app_nil_r.
    replace (length (body ++ q :: rest) <? length (d :: body ++ q :: rest))
      with true by (symmetry; apply Nat.ltb_lt; simpl; lia).
    rewrite flat_map_app. rewrite IH.
    + cbn [flat_map]. rewrite exec_lit_quote, Hd by assumption. reflexivity.
    + intros Hin. apply Hb. now right.
    + simpl in Hfuel. lia.
Qed.

Lemma exec_QUOTED (n0 : nat) (s : str) :
  exec n0 QUOTED s =
  exec n0 (quoted dquote) s ++ exec n0 (quoted squote) s
  ++ exec n0 (quoted backtick) s.
Proof. reflexivity. Qed.

Lemma is_quote_false (c : char) :
  is_quote c = false -> c <> dquote /\ c <> squote /\ c <> backtick.
Proof.
  unfold is_quote. intros H.
  apply orb_false_elim in H. destruct H as [H H3].
  apply orb_false_elim in H. destruct H as [H1 H2].
  apply N.eqb_neq in H1, H2, H3. auto.
Qed.

Lemma exec_QUOTED_nonquote (n0 : nat) (c : char) (t : str) :
  is_quote c = false -> exec n0 QUOTED (c :: t) = [].
Proof.
  intros H. apply is_quote_false in H. destruct H as (H1 & H2 & H3).
  rewrite exec_QUOTED, !exec_quoted_other by (assumption || reflexivity).
  reflexivity.
Qed.

Lemma exec_QUOTED_open (n0 : nat) (q : char) (t : str) :
  is_quote q = true -> ~ In q t -> exec n0 QUOTED (q :: t) = [].
Proof.
  intros Hq Ht.
  assert (Hown : exec n0 (quoted q) (q :: t) = []).
  { rewrite exec_quoted. destruct (ieq q q); [|reflexivity].
    now apply star_open. }
  rewrite exec_QUOTED.
  destruct (is_quote_cases q Hq) as [E|[E|E]]; subst q;
    rewrite Hown, ?exec_quoted_other by (reflexivity || discriminate);
    reflexivity.
Qed.

Lemma exec_QUOTED_closed (n0 : nat) (q : char) (body rest : str) :
  is_quote q = true -> ~ In q body ->
  exec n0 QUOTED (q :: body ++ q :: rest) = [rest].
Proof.
  intros Hq Hb.
  assert (Hown : exec n0 (quoted q) (q :: body ++ q :: rest) = [rest]).
  { rewrite exec_quoted, (ieq_quote q q Hq), N.eqb_refl.
    apply star_close; [assumption | assumption |].
    rewrite length_app. lia. }
  rewrite exec_QUOTED.
  destruct (is_quote_cases q Hq) as [E|[E|E]]; subst q;
    rewrite Hown, ?exec_quoted_other by (reflexivity || discriminate);
    reflexivity.
Qed.

Lemma QUOTED_bol_free : bol_free QUOTED = true.
Proof. reflexivity. Qed.

Lemma strip_quotes_tail (c : char) (t : str) :
  sub_from (length (c :: t)) QUOTED 0 t = strip_quotes t.
Proof. apply sub_from_bol_free, QUOTED_bol_free. Qed.

(** A character that is not a quote is kept. *)
Lemma strip_quotes_nonquote (c : char) (t : str) :
  is_quote c = false -> strip_quotes (c :: t) = c :: strip_quotes t.
Proof.
  intros H. unfold strip_quotes at 1. unfold re_sub.
  rewrite sub_from_nomatch by now apply exec_QUOTED_nonquote.
  now rewrite strip_quotes_tail.
Qed.

(** A quote with no later quote of its type is kept. *)
Lemma strip_quotes_open (q : char) (t : str) :
  is_quote q = true -> ~ In q t -> strip_quotes (q :: t) = q :: strip_quotes t.
Proof.
  intros Hq Ht. unfold strip_quotes at 1. unfold re_sub.
  rewrite sub_from_nomatch by now apply exec_QUOTED_open.
  now rewrite strip_quotes_tail.
Qed.

(** A quote with a later quote of its type is removed with everything up
    to the nearest one. *)
Lemma strip_quotes_closed (q : char) (body rest : str) :
  is_quote q = true -> ~ In q body ->
  strip_quotes (q :: body ++ q :: rest) = strip_quotes rest.
Proof.
  intros Hq Hb. unfold strip_quotes at 1. unfold re_sub.
  rewrite (sub_from_match _ _ _ _ rest [] (length (body ++ [q]))).
  - replace (body ++ q :: rest) with ((body ++ [q]) ++ rest)
      by (rewrite <- app_assoc; reflexivity).
    rewrite sub_from_skip. apply sub_from_bol_free, QUOTED_bol_free.
  - now apply exec_QUOTED_closed.
  - simpl length. rewrite !length_app. simpl length. lia.
Qed.

Lemma strip_quotes_no_quote (s : str) : no_quote s -> strip_quotes s = s.
Proof.
  induction s as [|c t IH]; intros H; [reflexivity|].
  rewrite strip_quotes_nonquote by (apply H; now left).
  f_equal. apply IH. intros d Hd. apply H. now right.
Qed.



(** ** Properties of the line classifier *)

Lemma exec_OPENER_space (n0 : nat) (d : char) (u : str) :
  isspace d = true -> exec n0 OPENER (d :: u) = [].
Proof.
  intros Hd. unfold OPENER, W. cbn [Alts py map list_ascii_of_string Word exec].
  change (N_of_ascii "/") with 47%N. change (N_of_ascii "*") with 42%N.
  rewrite !(ieq_uncased _ d) by lia.
  destruct (N.eqb_spec 35 d) as [<-|_]; [discriminate Hd|].
  destruct (N.eqb_spec 47 d) as [<-|_]; [discriminate Hd|].
  reflexivity.
Qed.

Lemma matches_OPENER (n0 : nat) (u : str) :
  matches_at n0 OPENER u =
  prefixb (py "#") u || prefixb (py "//") u || prefixb (py "/*") u.
Proof.
  unfold matches_at, OPENER, W.
  cbn [Alts py map list_ascii_of_string Word exec prefixb].
  change (N_of_ascii "/") with 47%N. change (N_of_ascii "*") with 42%N.
  change (N_of_ascii "#") with 35%N.
  destruct u as [|a u]; [reflexivity|].
  rewrite !(ieq_uncased _ a) by lia.
  destruct (N.eqb_spec 35 a) as [<-|_]; [reflexivity|].
  destruct (N.eqb_spec 47 a) as [<-|_]; [|reflexivity].
  cbn [flat_map]. destruct u as [|b u]; [reflexivity|]. cbn [exec].
  rewrite !(ieq_uncased _ b) by lia.
  destruct (N.eqb_spec 47 b) as [<-|_]; [reflexivity|].
  destruct (N.eqb_spec 42 b) as [<-|_]; reflexivity.
Qed.

(** [\s*] followed by something that cannot start with whitespace: the
    whitespace is consumed whole. *)
Lemma star_space_then (n0 : nat) (f : str -> list str) :
  (forall d u, isspace d = true -> f (d :: u) = []) ->
  forall t fuel, length t <= fuel ->
    flat_map f (star_loop (exec n0 Space) fuel t) = f (lstrip t).
Proof.
  intros Hf. induction t as [|d u IH]; intros fuel Hfuel.
  - destruct fuel; cbn [star_loop exec flat_map app lstrip]; apply app_nil_r.
  - destruct fuel as [|n]; [simpl in Hfuel; lia|].
    cbn [star_loop exec lstrip]. destruct (isspace d) eqn:Hd.
    + cbn [flat_map]. rewrite ?app_nil_r.
      replace (length u <? length (d :: u)) with true
        by (symmetry; apply Nat.ltb_lt; simpl; lia).
      rewrite flat_map_app. cbn [flat_map]. rewrite (Hf d u Hd), ?app_nil_r.
      apply IH. simpl in Hfuel. lia.
    + cbn [flat_map app]. apply app_nil_r.
Qed.

Lemma exec_COMMENT (t : str) :
  exec (length t) COMMENT t = exec (length t) OPENER (lstrip t).
Proof.
  unfold COMMENT. cbn [Seqs exec].
  rewrite Nat.eqb_refl. cbn [flat_map]. rewrite app_nil_r.
  apply (star_space_then (length t)); [intros d u; apply exec_OPENER_space | lia].
Qed.

(** The classifier's pattern decides what the specification describes. *)
Lemma classifier_spec (t : str) : re_match COMMENT t = spec_pure_comment t.
Proof.
  unfold re_match, spec_pure_comment.
  rewrite <- (matches_OPENER (length t)).
  unfold matches_at. now rewrite exec_COMMENT.
Qed.

(** ** Properties of the passes and of the loop over the lines *)

Lemma first_match_split (l1 l2 : list Pattern) (p : Pattern) (subject : str) :
  (forall q, In q l1 -> re_search (compiled q) subject = false) ->
  re_search (compiled p) subject = true ->
  first_match (l1 ++ p :: l2) subject = Some p.
Proof.
  induction l1 as [|a l1 IH]; cbn [app first_match]; intros Hl1 Hp.
  - now rewrite Hp.
  - rewrite (Hl1 a) by now left. apply IH; [|assumption].
    intros q Hq. apply Hl1. now right.
Qed.

Lemma first_match_none (patterns : list Pattern) (subject : str) :
  (forall q, In q patterns -> re_search (compiled q) subject = false) ->
  first_match patterns subject = None.
Proof.
  induction patterns as [|a l IH]; cbn [first_match]; intros H; [reflexivity|].
  rewrite (H a) by now left. apply IH. intros q Hq. apply H. now right.
Qed.

Lemma first_match_none_inv (patterns : list Pattern) (subject : str) :
  first_match patterns subject = None ->
  forall q, In q patterns -> re_search (compiled q) subject = false.
Proof.
  induction patterns as [|a l IH]; cbn [first_match]; intros H q Hq;
    [contradiction|].
  destruct (re_search (compiled a) subject) eqn:Ha; [discriminate|].
  destruct Hq as [<-|Hq]; [exact Ha | now apply IH].
Qed.

Lemma first_match_some (patterns : list Pattern) (subject : str) (p : Pattern) :
  first_match patterns subject = Some p ->
  In p patterns /\ re_search (compiled p) subject = true.
Proof.
  induction patterns as [|a l IH]; cbn [first_match]; intros H; [discriminate|].
  destruct (re_search (compiled a) subject) eqn:Ha.
  - injection H as <-. split; [now left | assumption].
  - destruct (IH H) as [Hin Hs]. split; [now right | assumption].
Qed.

Lemma findings_at_app (n : nat) (a b : list Finding) :
  findings_at n (a ++ b) = findings_at n a ++ findings_at n b.
Proof. apply filter_app. Qed.

Lemma findings_at_all (n : nat) (ms : list Finding) :
  (forall x, In x ms -> line x = n) -> findings_at n ms = ms.
Proof.
  induction ms as [|a ms IH]; intros H; [reflexivity|].
  cbn [findings_at filter]. rewrite (H a) by now left. rewrite Nat.eqb_refl.
  f_equal. apply IH. intros x Hx. apply H. now right.
Qed.

Lemma findings_at_none (n : nat) (ms : list Finding) :
  (forall x, In x ms -> line x <> n) -> findings_at n ms = [].
Proof.
  induction ms as [|a ms IH]; intros H; [reflexivity|].
  cbn [findings_at filter]. destruct (Nat.eqb_spec (line a) n) as [E|_].
  - exfalso. now apply (H a); [left|].
  - apply IH. intros x Hx. apply H. now right.
Qed.

Section Scan.

Variables (fp : str) (ps : list Pattern).

Lemma raw_pass_length (n : nat) (t : str) :
  length (raw_pass fp ps n t) <= 1.
Proof. unfold raw_pass. destruct (first_match ps t); simpl; lia. Qed.

Lemma dequoted_pass_length (n : nat) (t : str) :
  length (dequoted_pass fp ps n t) <= 1.
Proof.
  unfold dequoted_pass. destruct (first_match ps (strip_quotes t)); simpl; lia.
Qed.

Lemma raw_pass_fields (n : nat) (t : str) (f : Finding) :
  In f (raw_pass fp ps n t) ->
  file f = fp /\ line f = n /\ content f = truncate t.
Proof.
  unfold raw_pass. destruct (first_match ps t); [|contradiction].
  intros [<-|[]]. auto.
Qed.

Lemma dequoted_pass_fields (n : nat) (t : str) (f : Finding) :
  In f (dequoted_pass fp ps n t) ->
  file f = fp /\ line f = n /\ content f = truncate t.
Proof.
  unfold dequoted_pass. destruct (first_match ps (strip_quotes t)); [|contradiction].
  intros [<-|[]]. auto.
Qed.

Lemma scan_line_fields (n : nat) (l : str) (f : Finding) :
  In f (scan_line fp ps n l) ->
  file f = fp /\ line f = n /\ content f = truncate (strip l).
Proof.
  unfold scan_line. destruct (re_match COMMENT (strip l)); [contradiction|].
  intros H. apply in_app_or in H.
  destruct H; [eapply raw_pass_fields | eapply dequoted_pass_fields]; eauto.
Qed.

(** The list [matches] only grows. *)
Lemma scan_lines_acc :
  forall f k acc,
    fst (scan_lines fp ps k f acc) = acc ++ fst (scan_lines fp ps k f []).
Proof.
  induction f as [|l rest IH|e]; intros k acc; cbn [scan_lines fst].
  - now rewrite app_nil_r.
  - rewrite IH, (IH _ ([] ++ _)). cbn [app]. now rewrite app_assoc.
  - now rewrite app_nil_r.
Qed.

Lemma scan_lines_line (l : str) (rest : reading) (k : nat) :
  fst (scan_lines fp ps k (Line l rest) []) =
  scan_line fp ps k l ++ fst (scan_lines fp ps (S k) rest []).
Proof. cbn [scan_lines app]. apply scan_lines_acc. Qed.

(** What is returned depends on the lines read only, not on how the
    reading ends. *)
Lemma scan_lines_lines_read :
  forall f k,
    fst (scan_lines fp ps k f []) =
    fst (scan_lines fp ps k (complete (lines_read f)) []).
Proof.
  induction f as [|l rest IH|e]; intros k; cbn [lines_read complete];
    [reflexivity| |reflexivity].
  rewrite !scan_lines_line. now rewrite IH.
Qed.

Lemma line_numbered_ge (f : reading) :
  forall first k l, line_numbered first f k = Some l -> first <= k.
Proof.
  induction f as [|l0 rest IH|e]; cbn [line_numbered]; intros first k l H;
    try discriminate.
  destruct (Nat.eqb_spec k first); [lia|]. apply IH in H. lia.
Qed.

(** Every finding comes from the line whose number it carries. *)
Lemma scan_lines_origin :
  forall f k x,
    In x (fst (scan_lines fp ps k f [])) ->
    exists l, line_numbered k f (line x) = Some l /\
              In x (scan_line fp ps (line x) l).
Proof.
  induction f as [|l rest IH|e]; intros k x Hin; try contradiction.
  rewrite scan_lines_line in Hin. apply in_app_or in Hin.
  cbn [line_numbered]. destruct Hin as [Hin|Hin].
  - destruct (scan_line_fields _ _ _ Hin) as (_ & Hk & _).
    rewrite Hk, Nat.eqb_refl. exists l. split; [reflexivity | assumption].
  - destruct (IH _ _ Hin) as [l' [Hl' Hx]].
    pose proof (line_numbered_ge _ _ _ _ Hl').
    destruct (Nat.eqb_spec (line x) k); [lia|]. eauto.
Qed.

(** The findings numbered [n] are those of the line numbered [n]. *)
Lemma findings_at_scan_lines (n : nat) :
  forall f k,
    findings_at n (fst (scan_lines fp ps k f [])) =
    match line_numbered k f n with
    | Some l => scan_line fp ps n l
    | None => []
    end.
Proof.
  induction f as [|l rest IH|e]; intros k; try reflexivity.
  rewrite scan_lines_line, findings_at_app. cbn [line_numbered].
  destruct (Nat.eqb_spec n k) as [->|Hne].
  - rewrite findings_at_all
      by (intros x Hx; now destruct (scan_line_fields _ _ _ Hx) as (_ & ? & _)).
    rewrite findings_at_none; [apply app_nil_r|].
    intros x Hx. destruct (scan_lines_origin _ _ _ Hx) as [l' [Hl' _]].
    apply line_numbered_ge in Hl'. lia.
  - rewrite findings_at_none.
    + apply IH.
    + intros x Hx. destruct (scan_line_fields _ _ _ Hx) as (_ & ? & _). lia.
Qed.

Lemma scan_lines_report :
  forall f k acc, raises f = true ->
    exists e, snd (scan_lines fp ps k f acc)
              = [py "Error reading " ++ fp ++ py ": " ++ e].
Proof.
  induction f as [|l rest IH|e]; cbn [raises scan_lines snd]; intros k acc H.
  - discriminate.
  - now apply IH.
  - now exists e.
Qed.

Lemma scan_line_not_comment (n : nat) (l : str) :
  spec_pure_comment (strip l) = false ->
  scan_line fp ps n l =
  raw_pass fp ps n (strip l) ++ dequoted_pass fp ps n (strip l).
Proof. intros H. unfold scan_line. now rewrite classifier_spec, H. Qed.

Lemma scan_line_comment (n : nat) (l : str) :
  spec_pure_comment (strip l) = true -> scan_line fp ps n l = [].
Proof. intros H. unfold scan_line. now rewrite classifier_spec, H. Qed.

End Scan.

Lemma scan_file_with_file (env : Env) (f : reading) (fp : str) (ps : list Pattern) :
  scan_file (with_file env f) fp ps =
  if list_eq_dec N.eq_dec (abspath env fp) (script_itself env)
  then ([], [])
  else scan_lines fp ps 1 f [].
Proof. reflexivity. Qed.

Lemma truncate_long (t : str) :
  100 < length t ->
  truncate t = firstn 100 t ++ py "..." /\ length (truncate t) = 103.
Proof.
  intros H. unfold truncate.
  replace (100 <? length t) with true by (symmetry; now apply Nat.ltb_lt).
  split; [reflexivity|]. rewrite length_app, length_firstn.
  change (length (py "...")) with 3. lia.
Qed.

Lemma truncate_short (t : str) : length t <= 100 -> truncate t = t.
Proof.
  intros H. unfold truncate.
  replace (100 <? length t) with false; [reflexivity|].
  symmetry. apply Nat.ltb_ge. exact H.
Qed.

(** ** The scanner on sample files *)

Example scan_unquoted_command :
  scan_file (sample_env (Line (py "rm -rf /tmp/data") Eof)) (py "a.sh")
            RISKY_PATTERNS
  = ([mkFinding (py "a.sh") 1 (py "rm\s+-rf") (py "rm -rf /tmp/data");
      mkFinding (py "a.sh") 1 (py "rm\s+-rf (de-quoted)") (py "rm -rf /tmp/data")],
     []).
Proof. vm_compute. reflexivity. Qed.

Example scan_comment_line :
  scan_file (sample_env (Line (py "# rm -rf /tmp/data") Eof)) (py "a.sh")
            RISKY_PATTERNS
  = ([], []).
Proof. vm_compute. reflexivity. Qed.

Example scan_itself :
  scan_file (sample_env (Line (py "rm -rf /tmp/data") Eof))
            (py "/opt/scriptsnoop.py") RISKY_PATTERNS
  = ([], []).
Proof. vm_compute. reflexivity. Qed.

Example scan_unopenable :
  scan_file (sample_env (Raise (py "Permission denied"))) (py "a.sh")
            RISKY_PATTERNS
  = ([], [py "Error reading a.sh: Permission denied"]).
Proof. vm_compute. reflexivity. Qed.

Example scan_second_line_numbered :
  map line
      (fst (scan_file (sample_env (Line [] (Line (py "  chmod 777 f  ") Eof)))
                      (py "a.sh") RISKY_PATTERNS))
  = [2; 2].
Proof. vm_compute. reflexivity. Qed.

Example sudo_chmod_matches_two :
  map (fun p => re_search (compiled p) sudo_chmod) RISKY_PATTERNS
  = [false; false; false; true; true; false; false; false; false].
Proof. vm_compute. reflexivity. Qed.

(** ** The statements of the specification *)

(** C1, as stated, fails: a reading that raises after a risky line leaves
    the line's two findings in the returned list. *)
Lemma read_error_keeps_earlier_findings :
  raises (open failing_env (py "a.sh")) = true /\
  fst (scan_file failing_env (py "a.sh") RISKY_PATTERNS) =
  [mkFinding (py "a.sh") 1 (py "rm\s+-rf") (py "rm -rf /tmp/data");
   mkFinding (py "a.sh") 1 (py "rm\s+-rf (de-quoted)") (py "rm -rf /tmp/data")] /\
  fst (scan_file failing_env (py "a.sh") RISKY_PATTERNS) <> [].
Proof.
  split; [reflexivity|]. split; [vm_compute; reflexivity|].
  intros H. vm_compute in H. discriminate H.
Qed.

(** C1 (amended): when reading a file raises, [scan_file] returns the
    findings of the lines read before the exception, exactly what it
    returns for a file that ends after those lines; the list is empty when
    no line was read, as when the file cannot be opened; and unless the
    file is the scanner itself the error is printed. *)
Theorem scan_file_read_error (env : Env) (fp : str) (ps : list Pattern) :
  raises (open env fp) = true ->
  fst (scan_file env fp ps) =
    fst (scan_file (with_file env (complete (lines_read (open env fp)))) fp ps)
  /\ (lines_read (open env fp) = [] -> fst (scan_file env fp ps) = [])
  /\ (abspath env fp <> script_itself env ->
      exists e, snd (scan_file env fp ps)
                = [py "Error reading " ++ fp ++ py ": " ++ e]).
Proof.
  intros Hr. rewrite scan_file_with_file. unfold scan_file.
  destruct (list_eq_dec N.eq_dec (abspath env fp) (script_itself env)) as [E|E].
  - split; [reflexivity|]. split; [reflexivity|]. intros H. contradiction.
  - split; [apply scan_lines_lines_read|]. split.
    + intros Hl. rewrite scan_lines_lines_read, Hl. reflexivity.
    + intros _. now apply scan_lines_report.
Qed.

Lemma scan_file_read_error_witness :
  fst (scan_file failing_env (py "a.sh") RISKY_PATTERNS) =
  fst (scan_file (with_file failing_env (complete [py "rm -rf /tmp/data"]))
                 (py "a.sh") RISKY_PATTERNS).
Proof.
  apply (scan_file_read_error failing_env (py "a.sh") RISKY_PATTERNS).
  reflexivity.
Defined.

(** C2, as stated, fails: on a line with interleaved quote characters the
    stripper's output differs from the three per-delimiter passes run one
    after the other, in each of the six orders, and from the three passes
    run side by side. *)
Lemma strip_quotes_is_not_three_passes :
  strip_quotes interleaved = py "  " ++ [dquote] ++ py "e" /\
  spec_strip_seq dquote squote backtick interleaved <> strip_quotes interleaved /\
  spec_strip_seq dquote backtick squote interleaved <> strip_quotes interleaved /\
  spec_strip_seq squote dquote backtick interleaved <> strip_quotes interleaved /\
  spec_strip_seq squote backtick dquote interleaved <> strip_quotes interleaved /\
  spec_strip_seq backtick dquote squote interleaved <> strip_quotes interleaved /\
  spec_strip_seq backtick squote dquote interleaved <> strip_quotes interleaved /\
  spec_strip_parallel interleaved <> strip_quotes interleaved.
Proof.
  split; [vm_compute; reflexivity|].
  repeat split; intros H; vm_compute in H; discriminate H.
Qed.

(** C2 (amended): the stripper is one left-to-right pass in which the
    three delimiter types are alternatives.  A character that is not a
    quote is kept; a quote character followed later by the same quote
    character is removed together with everything up to the nearest such
    character, whatever other quote characters lie in between; a quote
    character not followed by the same quote character is kept; in each
    case the pass goes on with the rest of the line. *)
Theorem strip_quotes_single_pass :
  strip_quotes [] = []
  /\ (forall c t, is_quote c = false ->
        strip_quotes (c :: t) = c :: strip_quotes t)
  /\ (forall q body rest, is_quote q = true -> ~ In q body ->
        strip_quotes (q :: body ++ q :: rest) = strip_quotes rest)
  /\ (forall q t, is_quote q = true -> ~ In q t ->
        strip_quotes (q :: t) = q :: strip_quotes t).
Proof.
  split; [reflexivity|]. split; [exact strip_quotes_nonquote|].
  split; [exact strip_quotes_closed | exact strip_quotes_open].
Qed.

Lemma strip_quotes_single_pass_witness :
  strip_quotes (dquote :: py "it's" ++ dquote :: py " done")
  = strip_quotes (py " done").
Proof.
  apply (proj1 (proj2 (proj2 strip_quotes_single_pass))).
  - reflexivity.
  - simpl. intros H. repeat (destruct H as [H|H]; [discriminate H|]). exact H.
Defined.




(** C4: on a line that is not a pure comment each pass reports the first
    matching pattern only.  When the text a pass examines matches a
    pattern and none of the patterns before it in the catalog, the pass
    produces exactly one finding, labelled after that pattern (with the
    de-quoted marker in the de-quoted pass), whatever patterns after it
    match as well. *)
Theorem each_pass_first_match_only (fp : str) (n : nat) (l : str)
    (l1 l2 : list Pattern) (p : Pattern) :
  spec_pure_comment (strip l) = false ->
  scan_line fp (l1 ++ p :: l2) n l
  = raw_pass fp (l1 ++ p :: l2) n (strip l)
    ++ dequoted_pass fp (l1 ++ p :: l2) n (strip l)
  /\ ((forall q, In q l1 -> re_search (compiled q) (strip l) = false) ->
      re_search (compiled p) (strip l) = true ->
      raw_pass fp (l1 ++ p :: l2) n (strip l)
      = [mkFinding fp n (text p) (truncate (strip l))])
  /\ ((forall q, In q l1 ->
         re_search (compiled q) (strip_quotes (strip l)) = false) ->
      re_search (compiled p) (strip_quotes (strip l)) = true ->
      dequoted_pass fp (l1 ++ p :: l2) n (strip l)
      = [mkFinding fp n (text p ++ py " (de-quoted)") (truncate (strip l))]).
Proof.
  intros Hc. split; [now apply scan_line_not_comment|]. split.
  - intros H1 Hp. unfold raw_pass. now rewrite first_match_split.
  - intros H1 Hp. unfold dequoted_pass. now rewrite first_match_split.
Qed.

Lemma each_pass_first_match_only_witness :
  raw_pass (py "a.sh") RISKY_PATTERNS 7 (strip sudo_chmod)
  = [mkFinding (py "a.sh") 7 (py "sudo\s+.*(rm|dd|mkfs|chmod)") sudo_chmod].
Proof.
  apply (proj1 (proj2
    (each_pass_first_match_only (py "a.sh") 7 sudo_chmod
       (firstn 3 RISKY_PATTERNS) (skipn 4 RISKY_PATTERNS)
       (mkPattern (py "sudo\s+.*(rm|dd|mkfs|chmod)")
          (Seqs (W "sudo") [Plus Space; Star Dot;
                            Alts (W "rm") [W "dd"; W "mkfs"; W "chmod"]]))
       eq_refl))).
  - intros q H. simpl in H.
    repeat (destruct H as [H|H]; [subst q; vm_compute; reflexivity|]).
    contradiction.
  - vm_compute. reflexivity.
Defined.

(** C5, as stated, fails for empty lines: a catalog with a pattern that
    matches the empty string yields findings on a blank line. *)
Lemma blank_line_reported :
  strip (py "   ") = [] /\
  scan_line (py "a.sh") [mkPattern (py "x*") (Star (Lit 120%N))] 1 (py "   ")
  = [mkFinding (py "a.sh") 1 (py "x*") [];
     mkFinding (py "a.sh") 1 (py "x* (de-quoted)") []].
Proof. split; vm_compute; reflexivity. Qed.

(** C5 (amended): a line whose first non-whitespace content is a hash,
    two slashes, or a slash and a star produces no finding from either
    pass, whatever the catalog; a line whose trimmed text is empty
    produces no finding when no pattern of the catalog matches the empty
    string, as is the case of the scanner's own catalog. *)
Theorem skipped_lines (fp : str) (ps : list Pattern) (n : nat) (l : str) :
  (spec_pure_comment (strip l) = true -> scan_line fp ps n l = [])
  /\ (strip l = [] ->
      (forall p, In p ps -> re_search (compiled p) [] = false) ->
      scan_line fp ps n l = [])
  /\ (strip l = [] -> scan_line fp RISKY_PATTERNS n l = []).
Proof.
  split; [apply scan_line_comment|].
  assert (H : forall qs, strip l = [] ->
                (forall p, In p qs -> re_search (compiled p) [] = false) ->
                scan_line fp qs n l = []).
  { intros qs Hl Hqs. unfold scan_line, raw_pass, dequoted_pass.
    rewrite Hl. change (strip_quotes []) with (@nil char).
    rewrite first_match_none by assumption.
    now destruct (re_match COMMENT []). }
  split; [apply H|]. intros Hl. apply H; [assumption|].
  intros p Hp. simpl in Hp.
  repeat (destruct Hp as [Hp|Hp]; [subst p; vm_compute; reflexivity|]).
  contradiction.
Qed.

Lemma skipped_lines_witness :
  scan_line (py "a.sh") [mkPattern (py "x*") (Star (Lit 120%N))] 3
            (py "  // rm -rf /") = [].
Proof.
  apply (proj1 (skipped_lines (py "a.sh")
                  [mkPattern (py "x*") (Star (Lit 120%N))] 3
                  (py "  // rm -rf /"))).
  reflexivity.
Defined.

(** C6: among the findings of a scanned file, those carrying a given line
    number are at most two: the raw-pass findings of one line, at most
    one, followed by the de-quoted-pass findings of the same line, at
    most one. *)
Theorem at_most_two_findings_per_line (env : Env) (fp : str)
    (ps : list Pattern) (n : nat) :
  length (findings_at n (fst (scan_file env fp ps))) <= 2
  /\ (findings_at n (fst (scan_file env fp ps)) = []
      \/ exists t,
          findings_at n (fst (scan_file env fp ps))
          = raw_pass fp ps n t ++ dequoted_pass fp ps n t
          /\ length (raw_pass fp ps n t) <= 1
          /\ length (dequoted_pass fp ps n t) <= 1).
Proof.
  assert (H : findings_at n (fst (scan_file env fp ps)) = []
      \/ exists t,
          findings_at n (fst (scan_file env fp ps))
          = raw_pass fp ps n t ++ dequoted_pass fp ps n t).
  { unfold scan_file.
    destruct (list_eq_dec N.eq_dec (abspath env fp) (script_itself env));
      [now left|].
    rewrite findings_at_scan_lines.
    destruct (line_numbered 1 (open env fp) n) as [l|]; [|now left].
    unfold scan_line. destruct (re_match COMMENT (strip l)); [now left|].
    right. now exists (strip l). }
  destruct H as [H|[t H]]; rewrite H.
  - split; [simpl; lia | now left].
  - pose proof (raw_pass_length fp ps n t).
    pose proof (dequoted_pass_length fp ps n t).
    split; [rewrite length_app; lia|]. right. exists t. auto.
Qed.

(** C7: the content of every finding of a scanned file is that of the
    trimmed line the finding is numbered after: its first 100 characters
    followed by three dots, 103 characters in all, when the trimmed line
    is longer than 100 characters, and the trimmed line itself
    otherwise. *)
Theorem finding_content_truncated (env : Env) (fp : str) (ps : list Pattern)
    (x : Finding) :
  In x (fst (scan_file env fp ps)) ->
  exists l,
    line_numbered 1 (open env fp) (line x) = Some l
    /\ (100 < length (strip l) ->
        content x = firstn 100 (strip l) ++ py "..."
        /\ length (content x) = 103)
    /\ (length (strip l) <= 100 -> content x = strip l).
Proof.
  unfold scan_file.
  destruct (list_eq_dec N.eq_dec (abspath env fp) (script_itself env));
    [contradiction|].
  intros Hin. destruct (scan_lines_origin _ _ _ _ _ Hin) as [l [Hl Hx]].
  exists l. split; [exact Hl|].
  destruct (scan_line_fields _ _ _ _ _ Hx) as (_ & _ & Hc). rewrite Hc.
  split; [apply truncate_long | apply truncate_short].
Qed.

Lemma finding_content_truncated_witness :
  exists l,
    line_numbered 1 (open (sample_env (Line long_line Eof)) (py "a.sh")) 1
    = Some l
    /\ (100 < length (strip l) ->
        firstn 100 long_line ++ py "..." = firstn 100 (strip l) ++ py "..."
        /\ length (firstn 100 long_line ++ py "...") = 103)
    /\ (length (strip l) <= 100 ->
        firstn 100 long_line ++ py "..." = strip l).
Proof.
  apply (finding_content_truncated (sample_env (Line long_line Eof)) (py "a.sh")
           RISKY_PATTERNS
           (mkFinding (py "a.sh") 1 (py "rm\s+-rf")
              (firstn 100 long_line ++ py "..."))).
  vm_compute. left. reflexivity.
Defined.

(** C8: a finding of the de-quoted pass is labelled with the pattern that
    matched the de-quoted line followed by the de-quoted marker, and its
    content is the truncation of the original trimmed line, the same
    content as the raw-pass finding of that line. *)
Theorem dequoted_finding_shape (fp : str) (ps : list Pattern) (n : nat)
    (l : str) (x : Finding) :
  In x (dequoted_pass fp ps n (strip l)) ->
  exists p,
    In p ps
    /\ re_search (compiled p) (strip_quotes (strip l)) = true
    /\ pattern x = text p ++ py " (de-quoted)"
    /\ content x = truncate (strip l)
    /\ forall y, In y (raw_pass fp ps n (strip l)) -> content y = content x.
Proof.
  intros Hin.
  destruct (dequoted_pass_fields _ _ _ _ _ Hin) as (_ & _ & Hc).
  unfold dequoted_pass in Hin.
  destruct (first_match ps (strip_quotes (strip l))) as [p|] eqn:Hp;
    [|contradiction].
  destruct Hin as [<-|[]]. apply first_match_some in Hp. destruct Hp as [Hp Hs].
  exists p. repeat split; try assumption; try reflexivity.
  intros y Hy. destruct (raw_pass_fields _ _ _ _ _ Hy) as (_ & _ & Hy').
  rewrite Hy'. reflexivity.
Qed.

Lemma dequoted_finding_shape_witness :
  exists p,
    In p RISKY_PATTERNS
    /\ re_search (compiled p) (strip_quotes (strip quoted_path)) = true
    /\ py "rm\s+-rf (de-quoted)" = text p ++ py " (de-quoted)"
    /\ quoted_path = truncate (strip quoted_path)
    /\ forall y, In y (raw_pass (py "a.sh") RISKY_PATTERNS 2 (strip quoted_path)) ->
                 content y = quoted_path.
Proof.
  apply (dequoted_finding_shape (py "a.sh") RISKY_PATTERNS 2 quoted_path
           (mkFinding (py "a.sh") 2 (py "rm\s+-rf (de-quoted)") quoted_path)).
  vm_compute. left. reflexivity.
Defined.

(** C9: a line containing no double quote, no single quote and no
    backtick is returned unchanged by the quote stripper. *)
Theorem strip_quotes_without_quotes (s : str) :
  ~ In dquote s -> ~ In squote s -> ~ In backtick s -> strip_quotes s = s.
Proof.
  intros Hd Hs Hb. apply strip_quotes_no_quote. intros c Hc.
  destruct (is_quote c) eqn:E; [|reflexivity].
  destruct (is_quote_cases c E) as [-> | [-> | ->]]; contradiction.
Qed.

Lemma strip_quotes_without_quotes_witness :
  strip_quotes (py "rm -rf /tmp/data") = py "rm -rf /tmp/data".
Proof.
  apply (strip_quotes_without_quotes (py "rm -rf /tmp/data"));
    simpl; intros H; repeat (destruct H as [H|H]; [discriminate H|]); exact H.
Defined.

(** C10: the quote stripper only deletes characters: its output is a
    subsequence of the line, and so never longer than the line. *)
Theorem strip_quotes_only_deletes (s : str) :
  subseq (strip_quotes s) s /\ length (strip_quotes s) <= length s.
Proof.
  assert (H : subseq (strip_quotes s) s) by apply sub_from_subseq.
  split; [exact H | now apply subseq_length].
Qed.

(** ** Further properties of [scan_file] *)

Lemma line_numbered_lt (f : reading) :
  forall first k l,
    line_numbered first f k = Some l -> k < first + length (lines_read f).
Proof.
  induction f as [|l0 rest IH|e]; cbn [line_numbered lines_read length];
    intros first k l H; try discriminate.
  destruct (Nat.eqb_spec k first); [lia|]. apply IH in H. lia.
Qed.

Lemma scan_line_length (fp : str) (ps : list Pattern) (n : nat) (l : str) :
  length (scan_line fp ps n l) <= 2.
Proof.
  unfold scan_line. destruct (re_match COMMENT (strip l)); [simpl; lia|].
  rewrite length_app.
  pose proof (raw_pass_length fp ps n (strip l)).
  pose proof (dequoted_pass_length fp ps n (strip l)). lia.
Qed.

Lemma scan_lines_length (fp : str) (ps : list Pattern) :
  forall f k,
    length (fst (scan_lines fp ps k f [])) <= 2 * length (lines_read f).
Proof.
  induction f as [|l rest IH|e]; intros k; try (simpl; lia).
  rewrite scan_lines_line, length_app. cbn [lines_read length].
  pose proof (scan_line_length fp ps k l). specialize (IH (S k)). lia.
Qed.

Lemma scan_lines_from (fp : str) (ps : list Pattern) (f : reading) (k : nat)
    (x : Finding) :
  In x (fst (scan_lines fp ps k f [])) ->
  file x = fp /\ k <= line x < k + length (lines_read f).
Proof.
  intros Hin. destruct (scan_lines_origin _ _ _ _ _ Hin) as [l [Hl Hx]].
  destruct (scan_line_fields _ _ _ _ _ Hx) as (Hf & _ & _).
  pose proof (line_numbered_ge _ _ _ _ Hl).
  pose proof (line_numbered_lt _ _ _ _ Hl). auto.
Qed.

Lemma strongly_sorted_app (a b : list nat) :
  StronglySorted le a -> StronglySorted le b ->
  (forall x y, In x a -> In y b -> x <= y) ->
  StronglySorted le (a ++ b).
Proof.
  induction a as [|x a IH]; intros Ha Hb Hab; [exact Hb|].
  inversion Ha as [|? ? Ha' Hx]; subst. cbn [app]. constructor.
  - apply IH; [assumption | assumption |].
    intros u v Hu Hv. apply Hab; [now right | assumption].
  - apply Forall_app. split; [assumption|].
    apply Forall_forall. intros y Hy. apply Hab; [now left | assumption].
Qed.

Lemma strongly_sorted_constant (k : nat) (a : list nat) :
  (forall x, In x a -> x = k) -> StronglySorted le a.
Proof.
  induction a as [|x a IH]; intros H; constructor.
  - apply IH. intros y Hy. apply H. now right.
  - apply Forall_forall. intros y Hy.
    rewrite (H x) by now left. rewrite (H y) by now right. lia.
Qed.

Lemma scan_lines_sorted (fp : str) (ps : list Pattern) :
  forall f k, StronglySorted le (map line (fst (scan_lines fp ps k f []))).
Proof.
  induction f as [|l rest IH|e]; intros k; try constructor.
  rewrite scan_lines_line, map_app. apply strongly_sorted_app.
  - apply (strongly_sorted_constant k). intros x Hx.
    apply in_map_iff in Hx. destruct Hx as [m [<- Hm]].
    now destruct (scan_line_fields _ _ _ _ _ Hm) as (_ & ? & _).
  - apply IH.
  - intros x y Hx Hy.
    apply in_map_iff in Hx. destruct Hx as [m [<- Hm]].
    apply in_map_iff in Hy. destruct Hy as [m' [<- Hm']].
    destruct (scan_line_fields _ _ _ _ _ Hm) as (_ & ? & _).
    destruct (scan_lines_from _ _ _ _ _ Hm') as (_ & ? & _). lia.
Qed.

Lemma scan_lines_silent (fp : str) (ps : list Pattern) :
  forall f k acc, raises f = false -> snd (scan_lines fp ps k f acc) = [].
Proof.
  induction f as [|l rest IH|e]; cbn [raises scan_lines snd]; intros k acc H.
  - reflexivity.
  - now apply IH.
  - discriminate.
Qed.

(** X1: every finding of a file carries the path as it was given and the
    number of a line that was read, counted from one. *)
Theorem findings_located (env : Env) (fp : str) (ps : list Pattern)
    (x : Finding) :
  In x (fst (scan_file env fp ps)) ->
  file x = fp /\ 1 <= line x <= length (lines_read (open env fp)).
Proof.
  unfold scan_file.
  destruct (list_eq_dec N.eq_dec (abspath env fp) (script_itself env));
    [contradiction|].
  intros Hin. destruct (scan_lines_from _ _ _ _ _ Hin) as (Hf & H1 & H2).
  split; [exact Hf | lia].
Qed.

Lemma findings_located_witness :
  file (mkFinding (py "a.sh") 1 (py "rm\s+-rf") (py "rm -rf /tmp/data"))
  = py "a.sh"
  /\ 1 <= line (mkFinding (py "a.sh") 1 (py "rm\s+-rf") (py "rm -rf /tmp/data"))
     <= length (lines_read (open failing_env (py "a.sh"))).
Proof.
  apply (findings_located failing_env (py "a.sh") RISKY_PATTERNS).
  vm_compute. left. reflexivity.
Defined.

(** X2: the findings of a file are listed in the order of their lines. *)
Theorem findings_in_line_order (env : Env) (fp : str) (ps : list Pattern) :
  StronglySorted le (map line (fst (scan_file env fp ps))).
Proof.
  unfold scan_file.
  destruct (list_eq_dec N.eq_dec (abspath env fp) (script_itself env));
    [constructor | apply scan_lines_sorted].
Qed.

(** X3: a file yields at most two findings per line read. *)
Theorem findings_at_most_twice_the_lines (env : Env) (fp : str)
    (ps : list Pattern) :
  length (fst (scan_file env fp ps)) <= 2 * length (lines_read (open env fp)).
Proof.
  unfold scan_file.
  destruct (list_eq_dec N.eq_dec (abspath env fp) (script_itself env));
    [simpl; lia | apply scan_lines_length].
Qed.

(** X5: [scan_file] prints at most one line, and prints one exactly when
    the file is not the scanner itself and reading it raises. *)
Theorem error_printed_iff_raised (env : Env) (fp : str) (ps : list Pattern) :
  length (snd (scan_file env fp ps)) <= 1
  /\ (snd (scan_file env fp ps) <> [] <->
      abspath env fp <> script_itself env /\ raises (open env fp) = true).
Proof.
  unfold scan_file.
  destruct (list_eq_dec N.eq_dec (abspath env fp) (script_itself env)) as [E|E].
  - split; [simpl; lia|]. split; [intros H; now contradiction H | intros [H _]].
    contradiction.
  - destruct (raises (open env fp)) eqn:Hr.
    + destruct (scan_lines_report fp ps _ 1 [] Hr) as [e He]. rewrite He.
      split; [simpl; lia|]. split; [auto | intros _; discriminate].
    + rewrite scan_lines_silent by assumption.
      split; [simpl; lia|]. split; [intros H; now contradiction H|].
      intros [_ H]. discriminate.
Qed.

(** ** Trimming *)

Lemma lstrip_head (s : str) (c : char) :
  hd_error (lstrip s) = Some c -> isspace c = false.
Proof.
  induction s as [|d t IH]; cbn [lstrip]; [discriminate|].
  destruct (isspace d) eqn:Hd; [exact IH|].
  cbn [hd_error]. intros H. injection H as <-. exact Hd.
Qed.

(** [lstrip] removes a prefix made of whitespace. *)
Lemma lstrip_split (s : str) :
  exists ws, s = ws ++ lstrip s /\ Forall (fun c => isspace c = true) ws.
Proof.
  induction s as [|d t IH]; [exists []; split; [reflexivity | constructor]|].
  cbn [lstrip]. destruct (isspace d) eqn:Hd.
  - destruct IH as [ws [E Hws]]. exists (d :: ws). split.
    + cbn [app]. now rewrite <- E.
    + now constructor.
  - exists []. split; [reflexivity | constructor].
Qed.

Lemma lstrip_spaces (ws s : str) :
  Forall (fun c => isspace c = true) ws -> lstrip (ws ++ s) = lstrip s.
Proof.
  induction 1 as [|d ws Hd _ IH]; [reflexivity|].
  cbn [app lstrip]. now rewrite Hd.
Qed.

Lemma lstrip_all_spaces (ws : str) :
  Forall (fun c => isspace c = true) ws -> lstrip ws = [].
Proof.
  intros H. rewrite <- (app_nil_r ws). now rewrite lstrip_spaces.
Qed.

Lemma lstrip_app (s ws : str) :
  lstrip s <> [] -> lstrip (s ++ ws) = lstrip s ++ ws.
Proof.
  induction s as [|d t IH]; cbn [lstrip app]; intros H; [congruence|].
  destruct (isspace d); [now apply IH | reflexivity].
Qed.

Lemma rstrip_spaces (s ws : str) :
  Forall (fun c => isspace c = true) ws -> rstrip (s ++ ws) = rstrip s.
Proof.
  intros H. unfold rstrip. rewrite rev_app_distr, lstrip_spaces; [reflexivity|].
  apply Forall_rev, H.
Qed.

(** [rstrip] removes a suffix. *)
Lemma rstrip_split (s : str) : exists ws, s = rstrip s ++ ws.
Proof.
  destruct (lstrip_split (rev s)) as [ws [E _]]. exists (rev ws).
  unfold rstrip. rewrite <- rev_app_distr, <- E. symmetry. apply rev_involutive.
Qed.

Lemma strip_head (s : str) (c : char) :
  hd_error (strip s) = Some c -> isspace c = false.
Proof.
  unfold strip. destruct (rstrip_split (lstrip s)) as [ws E].
  intros H. apply (lstrip_head s). rewrite E.
  destruct (rstrip (lstrip s)); [discriminate | exact H].
Qed.

Lemma strip_last (s : str) (c : char) :
  hd_error (rev (strip s)) = Some c -> isspace c = false.
Proof.
  unfold strip, rstrip. rewrite rev_involutive. apply lstrip_head.
Qed.

(** Whitespace around a line does not change what [strip] returns. *)
Lemma strip_spaces (ws1 s ws2 : str) :
  Forall (fun c => isspace c = true) ws1 ->
  Forall (fun c => isspace c = true) ws2 ->
  strip (ws1 ++ s ++ ws2) = strip s.
Proof.
  intros H1 H2. unfold strip. rewrite lstrip_spaces by assumption.
  destruct (lstrip s) as [|d t] eqn:E.
  - destruct (lstrip_split s) as [ws [Es Hws]]. rewrite E, app_nil_r in Es.
    subst ws. rewrite lstrip_spaces, lstrip_all_spaces by assumption.
    reflexivity.
  - rewrite lstrip_app by (rewrite E; discriminate).
    rewrite E. now apply rstrip_spaces.
Qed.

Lemma truncate_length (t : str) : length (truncate t) <= 103.
Proof.
  destruct (Nat.lt_ge_cases 100 (length t)) as [H|H].
  - destruct (truncate_long t H) as [_ E]. lia.
  - rewrite truncate_short by assumption. lia.
Qed.

Lemma truncate_head (t : str) : hd_error (truncate t) = hd_error t.
Proof.
  unfold truncate. destruct (100 <? length t) eqn:E; [|reflexivity].
  destruct t; [discriminate E | reflexivity].
Qed.

Lemma truncate_last (t : str) (c : char) :
  hd_error (rev (truncate t)) = Some c ->
  hd_error (rev t) = Some c \/ c = 46%N.
Proof.
  unfold truncate. destruct (100 <? length t); [|now left].
  rewrite rev_app_distr. cbn. intros H. injection H as <-. now right.
Qed.

(** X4: the content of a finding has at most 103 characters and neither
    begins nor ends with a whitespace character. *)
Theorem finding_content_trimmed (env : Env) (fp : str) (ps : list Pattern)
    (x : Finding) :
  In x (fst (scan_file env fp ps)) ->
  length (content x) <= 103
  /\ (forall c, hd_error (content x) = Some c -> isspace c = false)
  /\ (forall c, hd_error (rev (content x)) = Some c -> isspace c = false).
Proof.
  unfold scan_file.
  destruct (list_eq_dec N.eq_dec (abspath env fp) (script_itself env));
    [contradiction|].
  intros Hin. destruct (scan_lines_origin _ _ _ _ _ Hin) as [l [_ Hx]].
  destruct (scan_line_fields _ _ _ _ _ Hx) as (_ & _ & ->).
  split; [apply truncate_length|]. split.
  - intros c. rewrite truncate_head. apply strip_head.
  - intros c H. apply truncate_last in H. destruct H as [H | ->].
    + now apply (strip_last l).
    + reflexivity.
Qed.

Lemma finding_content_trimmed_witness :
  length (firstn 100 long_line ++ py "...") <= 103
  /\ (forall c, hd_error (firstn 100 long_line ++ py "...") = Some c ->
                isspace c = false)
  /\ (forall c, hd_error (rev (firstn 100 long_line ++ py "...")) = Some c ->
                isspace c = false).
Proof.
  apply (finding_content_trimmed (sample_env (Line long_line Eof)) (py "a.sh")
           RISKY_PATTERNS
           (mkFinding (py "a.sh") 1 (py "rm\s+-rf")
              (firstn 100 long_line ++ py "..."))).
  vm_compute. left. reflexivity.
Defined.

(** X9: whitespace before and after a line changes none of its
    findings. *)
Theorem surrounding_whitespace_ignored (fp : str) (ps : list Pattern)
    (n : nat) (ws1 l ws2 : str) :
  Forall (fun c => isspace c = true) ws1 ->
  Forall (fun c => isspace c = true) ws2 ->
  scan_line fp ps n (ws1 ++ l ++ ws2) = scan_line fp ps n l.
Proof.
  intros H1 H2. unfold scan_line. now rewrite strip_spaces.
Qed.

Lemma surrounding_whitespace_ignored_witness :
  scan_line (py "a.sh") RISKY_PATTERNS 4
            ([9%N; 32%N] ++ py "chmod 777 f" ++ [13%N; 10%N])
  = scan_line (py "a.sh") RISKY_PATTERNS 4 (py "chmod 777 f").
Proof.
  apply (surrounding_whitespace_ignored (py "a.sh") RISKY_PATTERNS 4
           [9%N; 32%N] (py "chmod 777 f") [13%N; 10%N]);
    repeat constructor.
Defined.

(** ** Further properties of the quote stripper and of the classifier *)

Lemma subseq_In {A : Type} (l1 l2 : list A) (x : A) :
  subseq l1 l2 -> In x l1 -> In x l2.
Proof.
  induction 1 as [|y l1 l2 _ IH|y l1 l2 _ IH]; intros Hin.
  - contradiction.
  - destruct Hin as [->|Hin]; [now left | right; now apply IH].
  - right. now apply IH.
Qed.

Lemma strip_quotes_In (s : str) (x : char) : In x (strip_quotes s) -> In x s.
Proof. apply subseq_In, sub_from_subseq. Qed.

Lemma in_split_first (x : char) (l : str) :
  In x l -> exists l1 l2, l = l1 ++ x :: l2 /\ ~ In x l1.
Proof.
  induction l as [|a l IH]; intros Hin; [contradiction|].
  destruct (N.eq_dec a x) as [->|Hne].
  - exists [], l. split; [reflexivity | intros []].
  - destruct Hin as [E|Hin]; [contradiction|].
    destruct (IH Hin) as (l1 & l2 & -> & Hl1).
    exists (a :: l1), l2. split; [reflexivity|].
    intros [E|H]; [contradiction | now apply Hl1].
Qed.

(** After stripping, a quote character is left at most once. *)
Lemma strip_quotes_quote_once (q : char) :
  is_quote q = true ->
  forall n s, length s <= n -> count_occ N.eq_dec (strip_quotes s) q <= 1.
Proof.
  intros Hq. induction n as [|n IH]; intros s Hn.
  - destruct s; [simpl; lia | simpl in Hn; lia].
  - destruct s as [|c t]; [simpl; lia|]. simpl in Hn.
    destruct (is_quote c) eqn:Hc.
    + destruct (in_dec N.eq_dec c t) as [Hin|Hout].
      * destruct (in_split_first c t Hin) as (body & rest & -> & Hb).
        rewrite strip_quotes_closed by assumption. apply IH.
        rewrite length_app in Hn. simpl in Hn. lia.
      * rewrite strip_quotes_open by assumption.
        destruct (N.eq_dec c q) as [->|Hne].
        -- rewrite count_occ_cons_eq by reflexivity.
           rewrite (proj1 (count_occ_not_In N.eq_dec _ q)); [lia|].
           intros H. apply Hout. now apply strip_quotes_In.
        -- rewrite count_occ_cons_neq by assumption. apply IH. lia.
    + rewrite strip_quotes_nonquote by assumption.
      rewrite count_occ_cons_neq by (intros ->; congruence). apply IH. lia.
Qed.

(** A line on which no quote character occurs twice has nothing to
    strip. *)
Lemma strip_quotes_fixed (u : str) :
  (forall q, is_quote q = true -> count_occ N.eq_dec u q <= 1) ->
  strip_quotes u = u.
Proof.
  induction u as [|c t IH]; intros H; [reflexivity|].
  assert (Ht : forall q, is_quote q = true -> count_occ N.eq_dec t q <= 1).
  { intros q Hq. specialize (H q Hq). cbn [count_occ] in H.
    destruct (N.eq_dec c q); lia. }
  destruct (is_quote c) eqn:Hc.
  - rewrite strip_quotes_open, IH; try assumption; [reflexivity|].
    specialize (H c Hc). rewrite count_occ_cons_eq in H by reflexivity.
    apply (proj2 (count_occ_not_In N.eq_dec t c)).
    apply Nat.le_0_r, le_S_n. exact H.
  - rewrite strip_quotes_nonquote, IH by assumption. reflexivity.
Qed.

Lemma prefixb_spec (m s : str) :
  prefixb m s = true <-> exists rest, s = m ++ rest.
Proof.
  revert s. induction m as [|a m IH]; intros s; cbn [prefixb].
  - split; [intros _; now exists s | reflexivity].
  - destruct s as [|b s]; [split; [discriminate | intros [r Hr]; discriminate]|].
    rewrite andb_true_iff, N.eqb_eq, IH. split.
    + intros [-> [r ->]]. now exists r.
    + intros [r Hr]. injection Hr as -> ->. split; [reflexivity | now exists r].
Qed.

(** X7: the quote stripper leaves each of the three quote characters at
    most once on the line, so that stripping a stripped line changes
    nothing. *)
Theorem strip_quotes_idempotent (s : str) :
  count_occ N.eq_dec (strip_quotes s) dquote <= 1
  /\ count_occ N.eq_dec (strip_quotes s) squote <= 1
  /\ count_occ N.eq_dec (strip_quotes s) backtick <= 1
  /\ strip_quotes (strip_quotes s) = strip_quotes s.
Proof.
  split; [apply (strip_quotes_quote_once dquote eq_refl (length s)), le_n|].
  split; [apply (strip_quotes_quote_once squote eq_refl (length s)), le_n|].
  split; [apply (strip_quotes_quote_once backtick eq_refl (length s)), le_n|].
  apply strip_quotes_fixed. intros q Hq.
  apply (strip_quotes_quote_once q Hq (length s)), le_n.
Qed.

(** X6: on a line without quote characters the de-quoted pass repeats the
    raw pass: the line has no finding, or its raw-pass finding followed
    by the same finding under the de-quoted label. *)
Theorem unquoted_line_reported_twice (fp : str) (ps : list Pattern) (n : nat)
    (l : str) :
  no_quote (strip l) ->
  dequoted_pass fp ps n (strip l) = map relabel (raw_pass fp ps n (strip l))
  /\ (scan_line fp ps n l = []
      \/ exists m, scan_line fp ps n l = [m; relabel m]).
Proof.
  intros H.
  assert (E : dequoted_pass fp ps n (strip l)
              = map relabel (raw_pass fp ps n (strip l))).
  { unfold dequoted_pass, raw_pass. rewrite strip_quotes_no_quote by assumption.
    now destruct (first_match ps (strip l)). }
  split; [exact E|]. unfold scan_line.
  destruct (re_match COMMENT (strip l)); [now left|]. rewrite E.
  unfold raw_pass. destruct (first_match ps (strip l)); [right | now left].
  eexists. reflexivity.
Qed.

Lemma unquoted_line_reported_twice_witness :
  dequoted_pass (py "a.sh") RISKY_PATTERNS 3 (strip sudo_chmod)
  = map relabel (raw_pass (py "a.sh") RISKY_PATTERNS 3 (strip sudo_chmod))
  /\ (scan_line (py "a.sh") RISKY_PATTERNS 3 sudo_chmod = []
      \/ exists m, scan_line (py "a.sh") RISKY_PATTERNS 3 sudo_chmod
                   = [m; relabel m]).
Proof.
  apply (unquoted_line_reported_twice (py "a.sh") RISKY_PATTERNS 3 sudo_chmod).
  intros c H. vm_compute in H.
  repeat (destruct H as [H|H]; [subst c; reflexivity|]). contradiction.
Defined.

(** X8: the classifier's pattern matches a line exactly when the line is
    whitespace followed by a hash, by two slashes, or by a slash and a
    star. *)
Theorem comment_classifier_decides (s : str) :
  re_match COMMENT s = true <->
  exists ws opener rest,
    s = ws ++ opener ++ rest
    /\ Forall (fun c => isspace c = true) ws
    /\ In opener [py "#"; py "//"; py "/*"].
Proof.
  rewrite classifier_spec. unfold spec_pure_comment.
  rewrite !orb_true_iff, !prefixb_spec. split.
  - destruct (lstrip_split s) as [ws [E Hws]].
    intros [[[r Hr]|[r Hr]]|[r Hr]]; exists ws; eexists; exists r;
      (split; [rewrite E at 1; rewrite Hr; reflexivity|]);
      (split; [exact Hws|]); simpl; auto.
  - intros (ws & opener & rest & -> & Hws & Hin).
    rewrite lstrip_spaces by assumption.
    destruct Hin as [<-|[<-|[<-|[]]]]; [left; left | left; right | right];
      exists rest; reflexivity.
Qed.

(** ** Files made of several parts *)

Lemma scan_line_renumber (fp : str) (ps : list Pattern) (k n : nat) (l : str) :
  scan_line fp ps (k + n) l = map (renumber k) (scan_line fp ps n l).
Proof.
  unfold scan_line, raw_pass, dequoted_pass.
  destruct (re_match COMMENT (strip l)); [reflexivity|].
  destruct (first_match ps (strip l));
    destruct (first_match ps (strip_quotes (strip l))); reflexivity.
Qed.

Lemma scan_lines_renumber (fp : str) (ps : list Pattern) (k : nat) :
  forall f n,
    fst (scan_lines fp ps (k + n) f [])
    = map (renumber k) (fst (scan_lines fp ps n f [])).
Proof.
  induction f as [|l rest IH|e]; intros n; try reflexivity.
  rewrite !scan_lines_line, map_app, scan_line_renumber. f_equal.
  rewrite <- IH. now rewrite Nat.add_succ_r.
Qed.

Lemma scan_lines_complete_app (fp : str) (ps : list Pattern) (ls2 : list str) :
  forall ls1 k,
    fst (scan_lines fp ps k (complete (ls1 ++ ls2)) [])
    = fst (scan_lines fp ps k (complete ls1) [])
      ++ fst (scan_lines fp ps (length ls1 + k) (complete ls2) []).
Proof.
  induction ls1 as [|l ls1 IH]; intros k; [reflexivity|].
  cbn [app complete length]. rewrite !scan_lines_line, IH, <- app_assoc.
  now rewrite Nat.add_succ_r.
Qed.

(** X11: the findings of a file made of two parts are the findings of the
    first part followed by those of the second part, with the line
    numbers of the latter moved by the number of lines of the first. *)
Theorem findings_of_appended_lines (env : Env) (fp : str) (ps : list Pattern)
    (ls1 ls2 : list str) :
  fst (scan_file (with_file env (complete (ls1 ++ ls2))) fp ps)
  = fst (scan_file (with_file env (complete ls1)) fp ps)
    ++ map (renumber (length ls1))
           (fst (scan_file (with_file env (complete ls2)) fp ps)).
Proof.
  rewrite !scan_file_with_file.
  destruct (list_eq_dec N.eq_dec (abspath env fp) (script_itself env));
    [reflexivity|].
  rewrite scan_lines_complete_app. f_equal. apply scan_lines_renumber.
Qed.

(** ** Properties of [main] *)

Lemma scan_files_acc (env : Env) :
  forall files acc,
    fst (scan_files env files acc)
    = acc ++ flat_map (fun fp => fst (scan_file env fp RISKY_PATTERNS)) files.
Proof.
  induction files as [|fp rest IH]; intros acc; cbn [scan_files fst flat_map].
  - now rewrite app_nil_r.
  - rewrite IH. now rewrite app_assoc.
Qed.

Lemma scan_files_printed (env : Env) :
  forall files acc,
    snd (scan_files env files acc)
    = flat_map (fun fp => snd (scan_file env fp RISKY_PATTERNS)) files.
Proof.
  induction files as [|fp rest IH]; intros acc; cbn [scan_files snd flat_map];
    [reflexivity|].
  now rewrite IH.
Qed.

Lemma scan_file_not_itself (env : Env) (fp : str) (ps : list Pattern)
    (x : Finding) :
  In x (fst (scan_file env fp ps)) ->
  file x = fp /\ abspath env fp <> script_itself env.
Proof.
  unfold scan_file.
  destruct (list_eq_dec N.eq_dec (abspath env fp) (script_itself env));
    [contradiction|].
  intros Hin. now destruct (scan_lines_from _ _ _ _ _ Hin) as (? & _).
Qed.

Lemma scan_file_unopened (env : Env) (fp e : str) (ps : list Pattern) :
  open env fp = Raise e ->
  fst (scan_file env fp ps) = []
  /\ forall out, In out (snd (scan_file env fp ps)) ->
                 out = py "Error reading " ++ fp ++ py ": " ++ e.
Proof.
  intros H. unfold scan_file.
  destruct (list_eq_dec N.eq_dec (abspath env fp) (script_itself env)).
  - split; [reflexivity | intros out []].
  - rewrite H. cbn [scan_lines fst snd]. split; [reflexivity|].
    intros out [<-|[]]. reflexivity.
Qed.

Lemma flat_map_all_nil {A B : Type} (f : A -> list B) (l : list A) :
  (forall x, In x l -> f x = []) -> flat_map f l = [].
Proof.
  induction l as [|a l IH]; cbn [flat_map]; intros H; [reflexivity|].
  rewrite (H a) by now left. apply IH. intros x Hx. apply H. now right.
Qed.

Lemma strip_all_spaces (ws : str) :
  Forall (fun c => isspace c = true) ws -> strip ws = [].
Proof. intros H. unfold strip. now rewrite lstrip_all_spaces. Qed.

(** X12: the findings [main] collects carry the path of one of the files
    found, and none carries a path that resolves to the scanner's own
    file. *)
Theorem scanner_never_reports_itself (env : Env) (files : list str)
    (x : Finding) :
  In x (fst (scan_files env files [])) ->
  In (file x) files /\ abspath env (file x) <> script_itself env.
Proof.
  rewrite scan_files_acc. cbn [app]. intros Hin.
  apply in_flat_map in Hin. destruct Hin as [fp [Hfp Hx]].
  destruct (scan_file_not_itself _ _ _ _ Hx) as [-> Hne]. auto.
Qed.

Lemma scanner_never_reports_itself_witness :
  In (py "proj/run.sh") [py "proj/scriptsnoop.py"; py "proj/run.sh"]
  /\ abspath (os sample_host) (py "proj/run.sh")
     <> script_itself (os sample_host).
Proof.
  apply (scanner_never_reports_itself (os sample_host)
           [py "proj/scriptsnoop.py"; py "proj/run.sh"]
           (mkFinding (py "proj/run.sh") 2 (py "sudo\s+.*(rm|dd|mkfs|chmod)")
              (py "sudo rm x"))).
  vm_compute. left. reflexivity.
Defined.

(** X13: a line typed at the prompt that is empty or made of whitespace
    makes [main] scan the current directory, as typing a dot does. *)
Theorem blank_input_scans_current_directory (h : Host) (typed : str) :
  Forall (fun c => isspace c = true) typed ->
  main (with_input h typed) = main (with_input h (py ".")).
Proof.
  intros H. unfold main, target_of, with_input.
  cbn [input os normpath expanduser path_exists join glob find_risky_files].
  now rewrite strip_all_spaces.
Qed.

Lemma blank_input_scans_current_directory_witness :
  main (with_input sample_host [32%N; 9%N])
  = main (with_input sample_host (py ".")).
Proof.
  apply (blank_input_scans_current_directory sample_host [32%N; 9%N]).
  repeat constructor.
Defined.

(** X14: when the directory exists and files are found but none of them
    can be opened, [main] prints, after its two opening lines, only lines
    reporting the read errors and then the line saying that all files
    appear safe. *)
Theorem unreadable_files_reported_safe (h : Host) :
  path_exists h (target_of h) = true ->
  find_risky_files h (target_of h) EXTENSIONS <> [] ->
  (forall fp, In fp (find_risky_files h (target_of h) EXTENSIONS) ->
              exists e, open (os h) fp = Raise e) ->
  exists errors,
    main h
    = (py "Scanning directory: " ++ abspath (os h) (target_of h))
      :: (py "Found "
          ++ str_of_nat (length (find_risky_files h (target_of h) EXTENSIONS))
          ++ py " files to scan.")
      :: errors ++ [ALL_SAFE]
    /\ forall out, In out errors ->
         exists fp e,
           In fp (find_risky_files h (target_of h) EXTENSIONS)
           /\ open (os h) fp = Raise e
           /\ out = py "Error reading " ++ fp ++ py ": " ++ e.
Proof.
  intros Hdir Hfiles Hopen. unfold main. rewrite Hdir. cbn [negb].
  destruct (find_risky_files h (target_of h) EXTENSIONS) as [|f0 fs] eqn:E;
    [congruence|].
  assert (Hnone : fst (scan_files (os h) (f0 :: fs) []) = []).
  { rewrite scan_files_acc. cbn [app]. apply flat_map_all_nil.
    intros fp Hfp. destruct (Hopen fp Hfp) as [e He].
    now destruct (scan_file_unopened (os h) fp e RISKY_PATTERNS He). }
  exists (snd (scan_files (os h) (f0 :: fs) [])). rewrite Hnone.
  split; [reflexivity|].
  intros out Hout. rewrite scan_files_printed in Hout.
  apply in_flat_map in Hout. destruct Hout as [fp [Hfp Hin]].
  destruct (Hopen fp Hfp) as [e He]. exists fp, e.
  destruct (scan_file_unopened (os h) fp e RISKY_PATTERNS He) as [_ Hmsg].
  auto.
Qed.

Lemma unreadable_files_reported_safe_witness :
  exists errors,
    main locked_host
    = (py "Scanning directory: " ++ abspath (os locked_host) (target_of locked_host))
      :: (py "Found "
          ++ str_of_nat
               (length (find_risky_files locked_host (target_of locked_host)
                          EXTENSIONS))
          ++ py " files to scan.")
      :: errors ++ [ALL_SAFE]
    /\ forall out, In out errors ->
         exists fp e,
           In fp (find_risky_files locked_host (target_of locked_host) EXTENSIONS)
           /\ open (os locked_host) fp = Raise e
           /\ out = py "Error reading " ++ fp ++ py ": " ++ e.
Proof.
  apply (unreadable_files_reported_safe locked_host).
  - reflexivity.
  - vm_compute. discriminate.
  - intros fp _. exists (py "Permission denied"). reflexivity.
Defined.

(** ** Letter case *)

Lemma isspace_letter (c : char) : (65 <= c <= 122)%N -> isspace c = false.
Proof.
  intros H. unfold isspace.
  rewrite !orb_false_iff, !andb_false_iff, !N.leb_gt, !N.eqb_neq. lia.
Qed.

Lemma upper_cases (c : char) :
  upper c = c \/ ((97 <= c <= 122)%N /\ upper c = (c - 32)%N).
Proof.
  unfold upper.
  destruct (N.leb_spec 97 c); destruct (N.leb_spec c 122); cbn [andb]; auto.
Qed.

Lemma fold_upper (c : char) : fold (upper c) = fold c.
Proof.
  destruct (upper_cases c) as [->|[H ->]]; [reflexivity|].
  unfold fold.
  replace ((65 <=? c - 32) && (c - 32 <=? 90))%N with true
    by (symmetry; rewrite andb_true_iff, !N.leb_le; lia).
  replace ((65 <=? c) && (c <=? 90))%N with false
    by (symmetry; rewrite andb_false_iff, !N.leb_gt; lia).
  replace ((c =? 304) || (c =? 305))%N with false
    by (symmetry; rewrite orb_false_iff, !N.eqb_neq; lia).
  replace (c =? 383)%N with false by (symmetry; rewrite N.eqb_neq; lia).
  replace (c =? 8490)%N with false by (symmetry; rewrite N.eqb_neq; lia).
  lia.
Qed.

Lemma ieq_upper (c d : char) : ieq c (upper d) = ieq c d.
Proof. unfold ieq. now rewrite fold_upper. Qed.

Lemma isspace_upper (c : char) : isspace (upper c) = isspace c.
Proof.
  destruct (upper_cases c) as [->|[H ->]]; [reflexivity|].
  rewrite !isspace_letter by lia. reflexivity.
Qed.

Lemma newline_upper (c : char) : (upper c =? 10)%N = (c =? 10)%N.
Proof.
  destruct (upper_cases c) as [->|[H ->]]; [reflexivity|].
  destruct (N.eqb_spec (c - 32) 10); destruct (N.eqb_spec c 10);
    try reflexivity; lia.
Qed.

Lemma in_set_upper (cs : list char) (d : char) :
  in_set cs (upper d) = in_set cs d.
Proof.
  unfold in_set. induction cs as [|c cs IH]; [reflexivity|].
  cbn [existsb]. now rewrite ieq_upper, IH.
Qed.

Section Capitals.

Lemma up_length (s : str) : length (capitals s) = length s.
Proof. apply length_map. Qed.

Lemma flat_map_up (f : str -> list str) (l : list str) :
  (forall x, f (capitals x) = map capitals (f x)) ->
  flat_map f (map capitals l) = map capitals (flat_map f l).
Proof.
  intros H. induction l as [|a l IH]; [reflexivity|].
  cbn [map flat_map]. now rewrite H, IH, map_app.
Qed.

Lemma star_loop_up (step : str -> list str) :
  (forall x, step (capitals x) = map capitals (step x)) ->
  forall fuel s, star_loop step fuel (capitals s) = map capitals (star_loop step fuel s).
Proof.
  intros H. induction fuel as [|f IH]; intros s; [reflexivity|].
  cbn [star_loop]. rewrite map_app, H. f_equal.
  rewrite up_length. generalize (step s) as l.
  induction l as [|a l IHl]; [reflexivity|].
  cbn [map flat_map]. rewrite map_app, IHl, up_length. f_equal.
  destruct (length a <? length s); [apply IH | reflexivity].
Qed.

(** The matcher does not tell a letter from its capital. *)
Lemma exec_up (n0 : nat) (r : regex) :
  forall s, exec n0 r (capitals s) = map capitals (exec n0 r s).
Proof.
  induction r; intros s; cbn [exec].
  - reflexivity.
  - rewrite up_length. now destruct (length s =? n0).
  - destruct s as [|d t]; [reflexivity|]. cbn [capitals map].
    rewrite ieq_upper. now destruct (ieq c d).
  - destruct s as [|d t]; [reflexivity|]. cbn [capitals map].
    rewrite newline_upper. now destruct (d =? 10)%N.
  - destruct s as [|d t]; [reflexivity|]. cbn [capitals map].
    rewrite isspace_upper. now destruct (isspace d).
  - destruct s as [|d t]; [reflexivity|]. cbn [capitals map].
    rewrite in_set_upper. now destruct (xorb neg (in_set cs d)).
  - rewrite IHr1. now apply flat_map_up.
  - now rewrite IHr1, IHr2, map_app.
  - rewrite up_length. now apply star_loop_up.
Qed.

Lemma matches_at_up (n0 : nat) (r : regex) (s : str) :
  matches_at n0 r (capitals s) = matches_at n0 r s.
Proof.
  unfold matches_at. rewrite exec_up. now destruct (exec n0 r s).
Qed.

Lemma search_from_up (n0 : nat) (r : regex) (s : str) :
  search_from n0 r (capitals s) = search_from n0 r s.
Proof.
  induction s as [|c t IH]; [reflexivity|].
  change (capitals (c :: t)) with (upper c :: capitals t).
  cbn [search_from]. rewrite IH.
  change (upper c :: capitals t) with (capitals (c :: t)).
  now rewrite matches_at_up.
Qed.

Lemma re_search_up (r : regex) (s : str) : re_search r (capitals s) = re_search r s.
Proof. unfold re_search. now rewrite up_length, search_from_up. Qed.

Lemma re_match_up (r : regex) (s : str) : re_match r (capitals s) = re_match r s.
Proof. unfold re_match. now rewrite up_length, matches_at_up. Qed.

Lemma sub_from_up (n0 : nat) (r : regex) :
  forall s k, sub_from n0 r k (capitals s) = capitals (sub_from n0 r k s).
Proof.
  induction s as [|c t IH]; intros k; [reflexivity|].
  cbn [capitals map sub_from]. fold (capitals t). destruct k; [|apply IH].
  change (upper c :: capitals t) with (capitals (c :: t)). rewrite exec_up.
  destruct (exec n0 r (c :: t)) as [|s' ?]; cbn [map].
  - fold (capitals t). now rewrite IH.
  - rewrite !up_length.
    destruct (length (c :: t) - length s'); [|apply IH].
    cbn [capitals map]. fold (capitals t). now rewrite IH.
Qed.

Lemma strip_quotes_up (s : str) : strip_quotes (capitals s) = capitals (strip_quotes s).
Proof. unfold strip_quotes, re_sub. now rewrite up_length, sub_from_up. Qed.

Lemma lstrip_up (s : str) : lstrip (capitals s) = capitals (lstrip s).
Proof.
  induction s as [|c t IH]; [reflexivity|].
  cbn [capitals map lstrip]. rewrite isspace_upper.
  destruct (isspace c); [exact IH | reflexivity].
Qed.

Lemma strip_up (s : str) : strip (capitals s) = capitals (strip s).
Proof.
  unfold strip, rstrip. rewrite lstrip_up. unfold capitals.
  rewrite <- map_rev. fold (capitals (rev (lstrip s))).
  rewrite lstrip_up. unfold capitals. now rewrite map_rev.
Qed.

Lemma first_match_up (ps : list Pattern) (s : str) :
  first_match ps (capitals s) = first_match ps s.
Proof.
  induction ps as [|p ps IH]; [reflexivity|].
  cbn [first_match]. now rewrite re_search_up, IH.
Qed.

Lemma truncate_up (s : str) : truncate (capitals s) = capitals (truncate s).
Proof.
  unfold truncate. rewrite up_length.
  destruct (100 <? length s); [|reflexivity].
  unfold capitals. now rewrite map_app, firstn_map.
Qed.

Lemma scan_line_up (fp : str) (ps : list Pattern) (n : nat) (l : str) :
  scan_line fp ps n (capitals l) = map upper_content (scan_line fp ps n l).
Proof.
  unfold scan_line, raw_pass, dequoted_pass.
  rewrite strip_up, re_match_up, strip_quotes_up, !first_match_up, truncate_up.
  destruct (re_match COMMENT (strip l)); [reflexivity|].
  destruct (first_match ps (strip l));
    destruct (first_match ps (strip_quotes (strip l))); reflexivity.
Qed.

End Capitals.

(** X10: writing the letters of a line in capitals changes neither
    whether the line is skipped nor the patterns reported for it; only
    the reported content is capitalised with the line. *)
Theorem letter_case_ignored (fp : str) (ps : list Pattern) (n : nat) (l : str) :
  scan_line fp ps n (capitals l) = map upper_content (scan_line fp ps n l)
  /\ map pattern (scan_line fp ps n (capitals l))
     = map pattern (scan_line fp ps n l).
Proof.
  rewrite scan_line_up. split; [reflexivity|].
  rewrite map_map. reflexivity.
Qed.

(** ** Matching inside a longer line *)

Lemma star_loop_self (step : str -> list str) (fuel : nat) (s : str) :
  In s (star_loop step fuel s).
Proof.
  destruct fuel; cbn [star_loop]; [now left|].
  apply in_or_app. right. now left.
Qed.

Lemma star_loop_extend (step step' : str -> list str) (b : str) :
  (forall x x', In x' (step x) -> In (x' ++ b) (step' (x ++ b))) ->
  forall fuel fuel' s s',
    length (s ++ b) <= fuel' ->
    In s' (star_loop step fuel s) ->
    In (s' ++ b) (star_loop step' fuel' (s ++ b)).
Proof.
  intros Hstep. induction fuel as [|f IH]; intros fuel' s s' Hfuel Hin.
  - destruct Hin as [<-|[]]. apply star_loop_self.
  - cbn [star_loop] in Hin. apply in_app_or in Hin.
    destruct Hin as [Hin|[<-|[]]]; [|apply star_loop_self].
    apply in_flat_map in Hin. destruct Hin as [u [Hu Hin]].
    destruct (Nat.ltb_spec (length u) (length s)) as [Hlt|]; [|contradiction].
    assert (Hlt' : length (u ++ b) < length (s ++ b))
      by (rewrite !length_app; lia).
    destruct fuel' as [|f']; [lia|].
    cbn [star_loop]. apply in_or_app. left.
    apply in_flat_map. exists (u ++ b). split; [now apply Hstep|].
    replace (length (u ++ b) <? length (s ++ b)) with true
      by (symmetry; now apply Nat.ltb_lt).
    apply IH; [lia | exact Hin].
Qed.

(** What a pattern without [Bol] matches at the front of a text, it
    matches at the front of the text followed by more. *)
Lemma exec_extend (n m : nat) (b : str) (r : regex) :
  bol_free r = true ->
  forall s s', In s' (exec n r s) -> In (s' ++ b) (exec m r (s ++ b)).
Proof.
  induction r; cbn [bol_free exec]; intros Hr s s' Hin; try discriminate.
  - destruct Hin as [<-|[]]. now left.
  - destruct s as [|d t]; [contradiction|]. cbn [app].
    destruct (ieq c d); [|contradiction]. destruct Hin as [<-|[]]. now left.
  - destruct s as [|d t]; [contradiction|]. cbn [app].
    destruct (d =? 10)%N; [contradiction|]. destruct Hin as [<-|[]]. now left.
  - destruct s as [|d t]; [contradiction|]. cbn [app].
    destruct (isspace d); [|contradiction]. destruct Hin as [<-|[]]. now left.
  - destruct s as [|d t]; [contradiction|]. cbn [app].
    destruct (xorb neg (in_set cs d)); [|contradiction].
    destruct Hin as [<-|[]]. now left.
  - apply andb_prop in Hr. destruct Hr as [H1 H2].
    apply in_flat_map in Hin. destruct Hin as [u [Hu Hin]].
    apply in_flat_map. exists (u ++ b). split; [now apply IHr1 | now apply IHr2].
  - apply andb_prop in Hr. destruct Hr as [H1 H2].
    apply in_app_or in Hin. apply in_or_app.
    destruct Hin; [left; now apply IHr1 | right; now apply IHr2].
  - apply (star_loop_extend (exec n r) (exec m r) b (IHr Hr) (length s));
      [lia | exact Hin].
Qed.

Lemma matches_at_extend (n m : nat) (b : str) (r : regex) (s : str) :
  bol_free r = true ->
  matches_at n r s = true -> matches_at m r (s ++ b) = true.
Proof.
  intros Hr. unfold matches_at.
  destruct (exec n r s) as [|s' tl] eqn:E; [discriminate|]. intros _.
  assert (H : In (s' ++ b) (exec m r (s ++ b)))
    by (apply (exec_extend n m b r Hr s); rewrite E; now left).
  destruct (exec m r (s ++ b)); [contradiction | reflexivity].
Qed.

Lemma search_from_prefix (n0 : nat) (r : regex) (a s : str) :
  search_from n0 r s = true -> search_from n0 r (a ++ s) = true.
Proof.
  intros H. induction a as [|c a IH]; [exact H|].
  cbn [app search_from]. rewrite IH. apply orb_true_r.
Qed.

Lemma search_from_extend (n m : nat) (b : str) (r : regex) :
  bol_free r = true ->
  forall s, search_from n r s = true -> search_from m r (s ++ b) = true.
Proof.
  intros Hr. induction s as [|c t IH]; intros H.
  - cbn [search_from] in H. rewrite orb_false_r in H.
    apply (matches_at_extend n m b r [] Hr) in H.
    cbn [app] in *. destruct b; cbn [search_from]; rewrite H; reflexivity.
  - cbn [search_from] in H. apply orb_true_iff in H. cbn [app search_from].
    destruct H as [H|H].
    + apply (matches_at_extend n m b r (c :: t) Hr) in H.
      cbn [app] in H. now rewrite H.
    + rewrite (IH H). apply orb_true_r.
Qed.

Lemma re_search_inside (r : regex) (a s b : str) :
  bol_free r = true ->
  re_search r s = true -> re_search r (a ++ s ++ b) = true.
Proof.
  intros Hr H. unfold re_search in *.
  apply search_from_prefix. now apply (search_from_extend (length s)).
Qed.

Lemma first_match_inside (ps : list Pattern) (a s b : str) :
  (forall p, In p ps -> bol_free (compiled p) = true) ->
  first_match ps s <> None -> first_match ps (a ++ s ++ b) <> None.
Proof.
  induction ps as [|p ps IH]; cbn [first_match]; intros Hps H; [exact H|].
  destruct (re_search (compiled p) s) eqn:E.
  - rewrite re_search_inside; [discriminate | | exact E].
    apply Hps. now left.
  - destruct (re_search (compiled p) (a ++ s ++ b)); [discriminate|].
    apply IH; [|exact H]. intros q Hq. apply Hps. now right.
Qed.

Lemma RISKY_PATTERNS_bol_free (p : Pattern) :
  In p RISKY_PATTERNS -> bol_free (compiled p) = true.
Proof.
  intros H. simpl in H.
  repeat (destruct H as [H|H]; [subst p; reflexivity|]). contradiction.
Qed.

(** X15: with the scanner's own catalog, when a pattern of the catalog
    is found in a text, every line that is not a pure comment and whose
    trimmed text contains that text yields a raw-pass finding, and that
    finding comes first among the findings of the line. *)
Theorem risky_text_found_inside_line (fp : str) (n : nat) (l a s b : str) :
  strip l = a ++ s ++ b ->
  spec_pure_comment (strip l) = false ->
  (exists p, In p RISKY_PATTERNS /\ re_search (compiled p) s = true) ->
  exists p,
    In p RISKY_PATTERNS
    /\ re_search (compiled p) (strip l) = true
    /\ hd_error (scan_line fp RISKY_PATTERNS n l)
       = Some (mkFinding fp n (text p) (truncate (strip l))).
Proof.
  intros Hl Hc [p0 [Hp0 Hs0]].
  assert (Hm : first_match RISKY_PATTERNS (strip l) <> None).
  { rewrite Hl. apply first_match_inside; [exact RISKY_PATTERNS_bol_free|].
    intros H. rewrite (first_match_none_inv _ _ H p0 Hp0) in Hs0.
    discriminate Hs0. }
  destruct (first_match RISKY_PATTERNS (strip l)) as [p|] eqn:E;
    [|now contradiction Hm].
  destruct (first_match_some _ _ _ E) as [Hin Hs].
  exists p. split; [exact Hin|]. split; [exact Hs|].
  rewrite scan_line_not_comment by assumption.
  unfold raw_pass. rewrite E. reflexivity.
Qed.

Lemma risky_text_found_inside_line_witness :
  exists p,
    In p RISKY_PATTERNS
    /\ re_search (compiled p) (strip nested_rm) = true
    /\ hd_error (scan_line (py "a.sh") RISKY_PATTERNS 9 nested_rm)
       = Some (mkFinding (py "a.sh") 9 (text p) (truncate (strip nested_rm))).
Proof.
  apply (risky_text_found_inside_line (py "a.sh") 9 nested_rm
           (py "if ok; then ") (py "rm -rf /tmp/x") (py "; fi")).
  - reflexivity.
  - reflexivity.
  - exists (mkPattern (py "rm\s+-rf") (Seqs (W "rm") [Plus Space; W "-rf"])).
    split; [left; reflexivity | vm_compute; reflexivity].
Defined.

(** X16: the findings [main] collects are grouped by extension, those of
    the files found for [*.py] first, then those for [*.sh], then those
    for [*.bat], each group in the order in which [glob] lists the
    files. *)
Theorem findings_grouped_by_extension (h : Host) (directory : str) :
  fst (scan_files (os h) (find_risky_files h directory EXTENSIONS) [])
  = fst (scan_files (os h) (glob h (join h [directory; py "**"; py "*.py"])) [])
    ++ fst (scan_files (os h) (glob h (join h [directory; py "**"; py "*.sh"])) [])
    ++ fst (scan_files (os h) (glob h (join h [directory; py "**"; py "*.bat"])) []).
Proof.
  rewrite !scan_files_acc. cbn [app]. unfold find_risky_files, EXTENSIONS.
  cbn [flat_map]. now rewrite app_nil_r, !flat_map_app.
Qed.
